(** * SmartBookmarkApp: the bookmark list component

    A shallow embedding of [src/components/BookmarkList.tsx]: the React
    state of the component, the realtime (postgres_changes) callback, the
    two halves of [handleSubmit] and [handleDelete] around their [await],
    and the returned view.  Each React state setter called with an
    updater [current => ...] is a function on the corresponding slot of
    the state record. *)

From Stdlib Require Import List NArith Bool String Ascii Sorted Lia.
Import ListNotations.
Local Open Scope N_scope.

(** ** JavaScript strings

    A JS string is a sequence of UTF-16 code units.  [js] turns an ASCII
    literal into its code units. *)

Definition jsstring := list N.

Definition js (s : string) : jsstring :=
  List.map N_of_ascii (list_ascii_of_string s).

(** [a === b] on strings. *)
Fixpoint jsstring_eqb (a b : jsstring) : bool :=
  match a, b with
  | [], [] => true
  | x :: a', y :: b' => N.eqb x y && jsstring_eqb a' b'
  | _, _ => false
  end.

(** [a < b] on strings: lexicographic on code units. *)
Fixpoint jsstring_ltb (a b : jsstring) : bool :=
  match a, b with
  | _, [] => false
  | [], _ :: _ => true
  | x :: a', y :: b' => N.ltb x y || (N.eqb x y && jsstring_ltb a' b')
  end.

(** ECMAScript WhiteSpace and LineTerminator code points, the ones
    [String.prototype.trim] strips. *)
Definition is_white_space (c : N) : bool :=
  (c =? 9) || (c =? 10) || (c =? 11) || (c =? 12) || (c =? 13) || (c =? 32)
  || (c =? 160) || (c =? 5760)
  || ((8192 <=? c) && (c <=? 8202))
  || (c =? 8232) || (c =? 8233) || (c =? 8239) || (c =? 8287)
  || (c =? 12288) || (c =? 65279).

Fixpoint trimStart (s : jsstring) : jsstring :=
  match s with
  | c :: s' => if is_white_space c then trimStart s' else s
  | [] => []
  end.

Definition trimEnd (s : jsstring) : jsstring := rev (trimStart (rev s)).

Definition trim (s : jsstring) : jsstring := trimEnd (trimStart s).

(** Truthiness of a string: the empty string is the only falsy one. *)
Definition truthy (s : jsstring) : bool :=
  match s with [] => false | _ :: _ => true end.

(** ** The Bookmark record (lines 7-13) *)

Module Bookmark.
Record t := mk {
  id : jsstring;
  user_id : jsstring;
  url : jsstring;
  title : jsstring;
  created_at : jsstring
}.
End Bookmark.

Abbreviation Bookmark := Bookmark.t.

(** ** Updaters passed to [setBookmarks]

    The source writes them inline; the names are those of the spec's
    Local List State operations. *)

(** [b => b.id === x], the predicate of [some] (line 52) and [find]
    (line 147). *)
Definition has_id (x : jsstring) (b : Bookmark) : bool :=
  jsstring_eqb (Bookmark.id b) x.

(** [[record, ...current]] (lines 57, 109, 159). *)
Definition insertAtFront (record : Bookmark) (current : list Bookmark)
  : list Bookmark :=
  record :: current.

(** [current.filter(b => b.id !== x)] (lines 62, 128, 148). *)
Definition removeById (x : jsstring) (current : list Bookmark)
  : list Bookmark :=
  filter (fun b => negb (has_id x b)) current.

(** [current.map(b => b.id === x ? record : b)] (line 137). *)
Definition replaceById (x : jsstring) (record : Bookmark)
  (current : list Bookmark) : list Bookmark :=
  List.map (fun b => if has_id x b then record else b) current.

(** The INSERT updater (lines 50-58): skip when a record with the id of
    the new row is already present, otherwise put the row in front. *)
Definition insertUnlessExists (new : Bookmark) (current : list Bookmark)
  : list Bookmark :=
  let exists_ := existsb (has_id (Bookmark.id new)) current in
  if exists_ then current else insertAtFront new current.

(** ** Component state (lines 21-25) *)

Record State := mkState {
  bookmarks : list Bookmark;
  url : jsstring;
  title : jsstring;
  isAdding : bool;
  error : jsstring
}.

Definition setBookmarks (f : list Bookmark -> list Bookmark) (st : State)
  : State :=
  mkState (f (bookmarks st)) (url st) (title st) (isAdding st) (error st).

Definition setUrl (v : jsstring) (st : State) : State :=
  mkState (bookmarks st) v (title st) (isAdding st) (error st).

Definition setTitle (v : jsstring) (st : State) : State :=
  mkState (bookmarks st) (url st) v (isAdding st) (error st).

Definition setIsAdding (v : bool) (st : State) : State :=
  mkState (bookmarks st) (url st) (title st) v (error st).

Definition setError (v : jsstring) (st : State) : State :=
  mkState (bookmarks st) (url st) (title st) (isAdding st) v.

(** [useState] initial values. *)
Definition initialState (initialBookmarks : list Bookmark) : State :=
  mkState initialBookmarks [] [] false [].

(** ** Realtime payloads (lines 42-67)

    The subscription asks for every event ([event: '*']); the callback
    acts on INSERT and DELETE and falls through on UPDATE.  Of
    [payload.old] only the id is read. *)

Inductive RealtimePayload :=
| INSERT (new : Bookmark)
| UPDATE (new : Bookmark)
| DELETE (old_id : jsstring).

Definition onPostgresChanges (payload : RealtimePayload) (st : State)
  : State :=
  match payload with
  | INSERT new => setBookmarks (insertUnlessExists new) st
  | DELETE old_id => setBookmarks (removeById old_id) st
  | UPDATE _ => st
  end.

(** Payloads handled one after the other. *)
Definition deliverAll (evs : list RealtimePayload) (st : State) : State :=
  fold_left (fun s e => onPostgresChanges e s) evs st.

(** ** Store responses *)

Record PostgrestError := mkError {
  message : jsstring;
  details : jsstring;
  hint : jsstring;
  code : jsstring
}.

(** What [await supabase.from('bookmarks').insert(..).select()]
    destructures into (line 113). *)
Record InsertResponse := mkInsertResponse {
  data : option (list Bookmark);
  insertError : option PostgrestError
}.

(** The row sent to the store (lines 113-117). *)
Record InsertRequest := mkInsertRequest {
  req_url : jsstring;
  req_title : jsstring;
  req_user_id : jsstring
}.

(** What the continuation of [handleSubmit] after the [await] closes
    over. *)
Record PendingInsert := mkPendingInsert {
  tempId : jsstring;
  optimisticBookmark : Bookmark;
  request : InsertRequest
}.

(** What the continuation of [handleDelete] after the [await] closes
    over; [delete_id] is the id sent to the store. *)
Record PendingDelete := mkPendingDelete {
  delete_id : jsstring;
  bookmarkToDelete : option Bookmark
}.

(** ** The handlers

    [new_URL u] is [true] when the platform's [new URL(u)] returns and
    [false] when it throws; [userId] is the component's prop.
    [handleSubmit] reads [url] and [title] from the render it was
    created in, which is the state the submit finds; [handleDelete]
    takes the list of its render as an argument. *)

Section Handlers.

Variable new_URL : jsstring -> bool.
Variable userId : jsstring.

(** [handleSubmit] up to its [await] (lines 79-117).  [randomUUID] and
    [now] are the results of [crypto.randomUUID()] and
    [new Date().toISOString()].  [None] means the handler returned
    before issuing a request. *)
Definition handleSubmit (randomUUID now : jsstring) (st0 : State)
  : State * option PendingInsert :=
  let st := setIsAdding true (setError [] st0) in
  if negb (new_URL (url st0)) then
    (setIsAdding false (setError (js "Please enter a valid URL") st), None)
  else if negb (truthy (trim (title st0))) then
    (setIsAdding false (setError (js "Please enter a title") st), None)
  else
    let optimistic :=
      Bookmark.mk randomUUID userId (trim (url st0)) (trim (title st0)) now in
    let st := setBookmarks (insertAtFront optimistic) st in
    let st := setTitle [] (setUrl [] st) in
    (st, Some (mkPendingInsert randomUUID optimistic
                 (mkInsertRequest (Bookmark.url optimistic)
                    (Bookmark.title optimistic) userId))).

(** [insertError.message || 'Unknown error'] inside the template of
    line 129. *)
Definition failureMessage (e : PostgrestError) : jsstring :=
  js "Failed to add bookmark: "
  ++ (if truthy (message e) then message e else js "Unknown error").

(** [handleSubmit] after its [await] (lines 119-142). *)
Definition handleSubmit_settled (p : PendingInsert) (r : InsertResponse)
  (st : State) : State :=
  let st :=
    match insertError r with
    | Some e =>
        let st := setBookmarks (removeById (tempId p)) st in
        let st := setError (failureMessage e) st in
        let st := setUrl (Bookmark.url (optimisticBookmark p)) st in
        setTitle (Bookmark.title (optimisticBookmark p)) st
    | None =>
        match data r with
        | Some (data0 :: _) =>
            setBookmarks (replaceById (tempId p) data0) st
        | _ => st
        end
    end in
  setIsAdding false st.

(** [handleDelete] up to its [await] (lines 145-153).  Line 147 looks
    the record up in [bookmarks] of the render that created the handler,
    here [rendered]; line 148 filters the current list, through the
    updater.  The two lists are the same when the click is handled by
    the latest render, and differ when the state changed after the
    render whose card was clicked. *)
Definition handleDelete (rendered : list Bookmark) (id : jsstring)
  (st : State) : State * PendingDelete :=
  let found := find (has_id id) rendered in
  (setBookmarks (removeById id) st, mkPendingDelete id found).

(** [handleDelete] after its [await] (lines 155-163). *)
Definition handleDelete_settled (p : PendingDelete)
  (deleteError : option PostgrestError) (st : State) : State :=
  match deleteError with
  | Some _ =>
      match bookmarkToDelete p with
      | Some b => setBookmarks (insertAtFront b) st
      | None => st
      end
  | None => st
  end.

End Handlers.

(** ** Mounting (lines 21-35)

    [useState] seeds the state from the props and the effect joins the
    channel whose callback is [onPostgresChanges]. *)

Record Component := mkComponent {
  state : State;
  channel_joined : bool
}.

Definition mount (initialBookmarks : list Bookmark) : Component :=
  mkComponent (initialState initialBookmarks) true.

(** ** Rendering and order

    The view maps over [bookmarks] in array order (line 239). *)
Definition snapshot (st : State) : list Bookmark := bookmarks st.

(** The three places that put a record into the list: the INSERT updater
    (line 57), the optimistic insert (line 109) and the rollback of a
    failed delete (line 159). *)
Inductive InsertionPath := ViaRealtime | ViaOptimistic | ViaRollback.

Definition insertVia (path : InsertionPath) (b : Bookmark)
  : list Bookmark -> list Bookmark :=
  match path with
  | ViaRealtime => insertUnlessExists b
  | ViaOptimistic => insertAtFront b
  | ViaRollback => insertAtFront b
  end.

Definition insertAll (ins : list (InsertionPath * Bookmark)) (st : State)
  : State :=
  fold_left (fun st pb => setBookmarks (insertVia (fst pb) (snd pb)) st) ins st.

(** [a.created_at < b.created_at]. *)
Definition created_before (a b : Bookmark) : Prop :=
  jsstring_ltb (Bookmark.created_at a) (Bookmark.created_at b) = true.

Definition newest_first : list Bookmark -> Prop :=
  StronglySorted (fun a b => created_before b a).

Definition oldest_first : list Bookmark -> Prop :=
  StronglySorted created_before.

(** Ids of a list, and how many records carry a given url and title. *)
Definition ids (l : list Bookmark) : list jsstring := List.map Bookmark.id l.

Definition count_url_title (u t : jsstring) (l : list Bookmark) : nat :=
  List.length
    (filter (fun b => jsstring_eqb (Bookmark.url b) u
                      && jsstring_eqb (Bookmark.title b) t) l).

(** A URL parser that accepts one given string and nothing else: the
    least that a scenario with that URL asks of the platform. *)
Definition accepts_only (u0 : jsstring) : jsstring -> bool :=
  fun u => jsstring_eqb u u0.

(** ** Scenarios

    Concrete histories of the component, used to evaluate the handlers. *)

Definition user1 : jsstring := js "0b9f6c1e-user".

(** The user types a url and a title into the form ([onChange], lines
    180 and 194). *)
Definition typed (u t : jsstring) (st : State) : State :=
  setTitle t (setUrl u st).

Module ScenarioA.
Definition url_a : jsstring := js "https://a.example".
Definition title_a : jsstring := js "A".
Definition temp : jsstring := js "7c9e6679-7425-40de-944b-e07fc1f90ae7".
Definition now : jsstring := js "2024-05-01T10:00:00.000Z".
Definition perm : jsstring := js "a3bb189e-8bf9-3888-9912-ace4e6543002".
(** The row the store created: echoed in the response and pushed on the
    channel. *)
Definition row : Bookmark :=
  Bookmark.mk perm user1 url_a title_a (js "2024-05-01T10:00:00.120Z").
Definition before_submit : State := typed url_a title_a (initialState []).
Definition placeholder : Bookmark := Bookmark.mk temp user1 url_a title_a now.
Definition pending : PendingInsert :=
  mkPendingInsert temp placeholder (mkInsertRequest url_a title_a user1).
Definition ok : InsertResponse := mkInsertResponse (Some [row]) None.
Definition after_submit : State := mkState [placeholder] [] [] true [].
End ScenarioA.

Module ScenarioB.
Definition url_b : jsstring := js "https://b.example".
Definition title_b : jsstring := js " B".
Definition temp : jsstring := js "16fd2706-8baf-433b-82eb-8c7fada847da".
Definition now : jsstring := js "2024-05-01T11:00:00.000Z".
Definition before_submit : State := typed url_b title_b (initialState []).
Definition submitted : State * option PendingInsert :=
  handleSubmit (accepts_only url_b) user1 temp now before_submit.
Definition placeholder : Bookmark :=
  Bookmark.mk temp user1 url_b (js "B") now.
Definition pending : PendingInsert :=
  mkPendingInsert temp placeholder (mkInsertRequest url_b (js "B") user1).
Definition failure : InsertResponse :=
  mkInsertResponse None
    (Some (mkError (js "new row violates row-level security policy")
             [] [] (js "42501"))).
End ScenarioB.

Module ScenarioT.
Definition r1 : Bookmark :=
  Bookmark.mk (js "id-1") user1 (js "https://one.example") (js "one")
    (js "2024-01-01T00:00:00.000Z").
Definition r2 : Bookmark :=
  Bookmark.mk (js "id-2") user1 (js "https://two.example") (js "two")
    (js "2024-01-02T00:00:00.000Z").
Definition r3 : Bookmark :=
  Bookmark.mk (js "id-3") user1 (js "https://three.example") (js "three")
    (js "2024-01-03T00:00:00.000Z").
End ScenarioT.

(** ** Payloads and ids *)

(** Whether a payload carries the id [x]: as the id of the inserted row
    or as the id of the deleted one.  UPDATE payloads are not looked at
    by the callback. *)
Definition mentions (x : jsstring) (e : RealtimePayload) : bool :=
  match e with
  | INSERT new => has_id x new
  | UPDATE _ => false
  | DELETE old_id => jsstring_eqb old_id x
  end.

(** How many records of a list carry the id [x]. *)
Definition count_id (x : jsstring) (l : list Bookmark) : nat :=
  List.length (filter (has_id x) l).

(** Whether a string begins, or ends, with a code unit that [trim]
    strips. *)
Definition starts_with_space (s : jsstring) : bool :=
  match s with c :: _ => is_white_space c | [] => false end.

Definition ends_with_space (s : jsstring) : bool :=
  starts_with_space (rev s).

(** ** The view (lines 166-290)

    What the returned JSX shows of the state, without its styling: the
    two controlled inputs, the error box ([error && ...]), the submit
    button, the count in the heading, and either the empty panel or one
    card per bookmark in array order.  The date shown on a card is the
    platform's formatting of [created_at], which is kept as it is.
    This is the element tree the function returns; React keys the cards
    by id, so what reaches the screen follows it when the ids of the
    list are pairwise distinct. *)

Record Item := mkItem {
  key : jsstring;
  heading : jsstring;
  href : jsstring;
  added : jsstring;
  delete_target : jsstring
}.

Inductive Listing :=
| NoBookmarksYet
| Items (items : list Item).

Record View := mkView {
  url_input : jsstring;
  title_input : jsstring;
  error_box : option jsstring;
  submit_disabled : bool;
  submit_label : jsstring;
  count_shown : nat;
  listing : Listing
}.

(** One card (lines 240-285): [key], title, link, date and the delete
    button, whose click calls [handleDelete(bookmark.id)]. *)
Definition renderItem (b : Bookmark) : Item :=
  mkItem (Bookmark.id b) (Bookmark.title b) (Bookmark.url b)
    (Bookmark.created_at b) (Bookmark.id b).

Definition render (st : State) : View :=
  mkView (url st) (title st)
    (if truthy (error st) then Some (error st) else None)
    (isAdding st)
    (if isAdding st then js "Adding..." else js "Add Bookmark")
    (List.length (bookmarks st))
    (if Nat.eqb (List.length (bookmarks st)) 0
     then NoBookmarksYet
     else Items (List.map renderItem (bookmarks st))).

(** ** The page (src/app/bookmarks/page.tsx)

    [BookmarksPage] asks the store for the signed-in user, redirects to
    the root when there is none, and otherwise queries the user's
    bookmarks and hands them to the list component.  [user] is the
    result of [auth.getUser()] and [rows] the [data] of the query. *)

Record User := mkUser {
  uid : jsstring;
  email : option jsstring
}.

(** Lines 15-18 of the component. *)
Record BookmarkListProps := mkProps {
  initialBookmarks : list Bookmark;
  userId : jsstring
}.

Inductive PageResult :=
| Redirect (path : jsstring)
| Page (header_email : option jsstring) (props : BookmarkListProps).

Definition BookmarksPage (user : option User)
  (rows : option (list Bookmark)) : PageResult :=
  match user with
  | None => Redirect (js "/")
  | Some u =>
      Page (email u)
        (mkProps (match rows with Some l => l | None => [] end) (uid u))
  end.

(** The first render of the component for given props. *)
Definition firstRender (props : BookmarkListProps) : View :=
  render (state (mount (initialBookmarks props))).

(** * Properties *)

(** ** Strings *)

Lemma jsstring_eqb_eq (a b : jsstring) : jsstring_eqb a b = true <-> a = b.
Proof.
  revert b; induction a as [|x a IH]; intros [|y b]; simpl;
    try (split; [discriminate | discriminate]); try tauto.
  rewrite andb_true_iff, N.eqb_eq, IH.
  split; [intros [-> ->]; reflexivity | intros [= -> ->]; auto].
Qed.

Lemma jsstring_eqb_refl (a : jsstring) : jsstring_eqb a a = true.
Proof. apply jsstring_eqb_eq; reflexivity. Qed.

Lemma jsstring_eqb_neq (a b : jsstring) : jsstring_eqb a b = false <-> a <> b.
Proof.
  rewrite <- jsstring_eqb_eq. destruct (jsstring_eqb a b); split; congruence.
Qed.

Lemma truthy_false (s : jsstring) : truthy s = false <-> s = [].
Proof. destruct s; simpl; split; congruence. Qed.

(** ** List updaters *)

Lemma has_id_true (x : jsstring) (b : Bookmark) :
  has_id x b = true <-> Bookmark.id b = x.
Proof. apply jsstring_eqb_eq. Qed.

Lemma existsb_has_id (x : jsstring) (l : list Bookmark) :
  existsb (has_id x) l = true <-> In x (ids l).
Proof.
  unfold ids. rewrite existsb_exists, in_map_iff.
  split; intros [b [H1 H2]]; exists b.
  - apply has_id_true in H2. auto.
  - split; [assumption | apply has_id_true; assumption].
Qed.

Lemma existsb_has_id_false (x : jsstring) (l : list Bookmark) :
  existsb (has_id x) l = false <-> ~ In x (ids l).
Proof.
  rewrite <- existsb_has_id. destruct (existsb _ _); split; congruence.
Qed.

Lemma removeById_absent (x : jsstring) (l : list Bookmark) :
  ~ In x (ids l) -> removeById x l = l.
Proof.
  induction l as [|b l IH]; simpl; intros H; [reflexivity|].
  destruct (has_id x b) eqn:E; simpl.
  - apply has_id_true in E. tauto.
  - rewrite IH; tauto.
Qed.

Lemma removeById_not_in (x : jsstring) (l : list Bookmark) :
  ~ In x (ids (removeById x l)).
Proof.
  unfold ids, removeById. rewrite in_map_iff. intros [b [H1 H2]].
  apply filter_In in H2. destruct H2 as [_ H2].
  apply negb_true_iff in H2.
  assert (has_id x b = true) by (apply has_id_true; assumption).
  congruence.
Qed.

Lemma removeById_idem (x : jsstring) (l : list Bookmark) :
  removeById x (removeById x l) = removeById x l.
Proof. apply removeById_absent, removeById_not_in. Qed.

Lemma find_has_id_absent (x : jsstring) (l : list Bookmark) :
  ~ In x (ids l) -> find (has_id x) l = None.
Proof.
  intros H. destruct (find (has_id x) l) as [b|] eqn:E; [|reflexivity].
  apply find_some in E. destruct E as [E1 E2].
  exfalso; apply H. apply has_id_true in E2. subst x.
  unfold ids. apply in_map. assumption.
Qed.

Lemma insertUnlessExists_present (r : Bookmark) (l : list Bookmark) :
  In (Bookmark.id r) (ids l) -> insertUnlessExists r l = l.
Proof.
  intros H. unfold insertUnlessExists.
  apply existsb_has_id in H. rewrite H. reflexivity.
Qed.

Lemma insertUnlessExists_absent (r : Bookmark) (l : list Bookmark) :
  ~ In (Bookmark.id r) (ids l) -> insertUnlessExists r l = r :: l.
Proof.
  intros H. unfold insertUnlessExists.
  apply existsb_has_id_false in H. rewrite H. reflexivity.
Qed.

Lemma ids_removeById_incl (x y : jsstring) (l : list Bookmark) :
  In y (ids (removeById x l)) -> In y (ids l).
Proof.
  unfold ids, removeById. rewrite !in_map_iff.
  intros [b [H1 H2]]. apply filter_In in H2. exists b. tauto.
Qed.

(** Where uniqueness of ids is kept: removal, the guarded INSERT updater,
    and a front insert of an id that is not in the list. *)
Lemma removeById_NoDup (x : jsstring) (l : list Bookmark) :
  NoDup (ids l) -> NoDup (ids (removeById x l)).
Proof.
  induction l as [|b l IH]; simpl; intros H; [constructor|].
  inversion H as [|? ? Hb Hl]; subst.
  destruct (has_id x b); simpl; [auto|].
  constructor; [|auto].
  intros Hin. apply Hb. eapply ids_removeById_incl. exact Hin.
Qed.

Lemma insertUnlessExists_NoDup (r : Bookmark) (l : list Bookmark) :
  NoDup (ids l) -> NoDup (ids (insertUnlessExists r l)).
Proof.
  intros H. unfold insertUnlessExists.
  destruct (existsb (has_id (Bookmark.id r)) l) eqn:E; [assumption|].
  apply existsb_has_id_false in E. simpl. constructor; assumption.
Qed.

Lemma insertAtFront_NoDup (r : Bookmark) (l : list Bookmark) :
  ~ In (Bookmark.id r) (ids l) -> NoDup (ids l) ->
  NoDup (ids (insertAtFront r l)).
Proof. intros H1 H2. simpl. constructor; assumption. Qed.

Lemma onPostgresChanges_NoDup (e : RealtimePayload) (st : State) :
  NoDup (ids (bookmarks st)) -> NoDup (ids (bookmarks (onPostgresChanges e st))).
Proof.
  intros H. destruct e as [new|new|x]; simpl;
    auto using insertUnlessExists_NoDup, removeById_NoDup.
Qed.

Lemma deliverAll_NoDup (evs : list RealtimePayload) (st : State) :
  NoDup (ids (bookmarks st)) -> NoDup (ids (bookmarks (deliverAll evs st))).
Proof.
  revert st. induction evs as [|e evs IH]; intros st H; simpl;
    [assumption | apply IH, onPostgresChanges_NoDup, H].
Qed.

(** ** State projections of the handlers *)

Lemma handleSubmit_accepts (new_URL : jsstring -> bool)
  (userId uuid now : jsstring) (st : State) :
  new_URL (url st) = true -> trim (title st) <> [] ->
  handleSubmit new_URL userId uuid now st =
  (let optimistic :=
     Bookmark.mk uuid userId (trim (url st)) (trim (title st)) now in
   (mkState (optimistic :: bookmarks st) [] [] true [],
    Some (mkPendingInsert uuid optimistic
            (mkInsertRequest (trim (url st)) (trim (title st)) userId)))).
Proof.
  intros Hu Ht. unfold handleSubmit. rewrite Hu. simpl.
  destruct (trim (title st)) eqn:E; [congruence|]. reflexivity.
Qed.

Lemma handleSubmit_pending (new_URL : jsstring -> bool)
  (userId uuid now : jsstring) (st st1 : State) (p : PendingInsert) :
  handleSubmit new_URL userId uuid now st = (st1, Some p) ->
  new_URL (url st) = true /\ trim (title st) <> [] /\
  p = mkPendingInsert uuid
        (Bookmark.mk uuid userId (trim (url st)) (trim (title st)) now)
        (mkInsertRequest (trim (url st)) (trim (title st)) userId) /\
  st1 = mkState (optimisticBookmark p :: bookmarks st) [] [] true [].
Proof.
  unfold handleSubmit. destruct (new_URL (url st)); simpl; [|discriminate].
  destruct (trim (title st)) eqn:E; simpl; [discriminate|].
  intros [= <- <-]. repeat split; congruence.
Qed.

(** ** Validation (C4) *)

(** C4.  A submission whose url is rejected by the URL parser, or whose
    title is empty once trimmed, returns before the optimistic insert: no
    request is issued, the list is the one the submission found, and
    [error] holds one of the two validation messages, which is a
    non-empty string and so is rendered.  The typed url and title stay in
    the form and the submit button is enabled again. *)
Theorem invalid_submission_rejected (new_URL : jsstring -> bool)
  (userId uuid now : jsstring) (st : State) :
  new_URL (url st) = false \/ trim (title st) = [] ->
  let result := handleSubmit new_URL userId uuid now st in
  snd result = None /\
  bookmarks (fst result) = bookmarks st /\
  (error (fst result) = js "Please enter a valid URL" \/
   error (fst result) = js "Please enter a title") /\
  truthy (error (fst result)) = true /\
  url (fst result) = url st /\
  title (fst result) = title st /\
  isAdding (fst result) = false.
Proof.
  intros H. unfold handleSubmit.
  destruct (new_URL (url st)) eqn:Hu; simpl.
  - destruct H as [H|H]; [discriminate|]. rewrite H. simpl.
    repeat split; auto.
  - repeat split; auto.
Qed.

Lemma invalid_submission_rejected_witness :
  let st := typed (js "not a url") (js "   ") (initialState [ScenarioA.row]) in
  let result :=
    handleSubmit (accepts_only ScenarioA.url_a) user1 ScenarioA.temp
      ScenarioA.now st in
  (accepts_only ScenarioA.url_a (url st) = false \/ trim (title st) = []) /\
  snd result = None /\ bookmarks (fst result) = [ScenarioA.row].
Proof.
  assert (H : accepts_only ScenarioA.url_a (js "not a url") = false)
    by reflexivity.
  split; [left; exact H|].
  pose proof (invalid_submission_rejected (accepts_only ScenarioA.url_a) user1
                ScenarioA.temp ScenarioA.now
                (typed (js "not a url") (js "   ")
                   (initialState [ScenarioA.row]))
                (or_introl H)) as W.
  split; [exact (proj1 W) | exact (proj1 (proj2 W))].
Defined.

(** ** Removal (C5) *)

(** C5.  [removeById x] applied twice is [removeById x] applied once; on
    a list without [x] it returns the list; its result never holds [x].
    When a click removes [x] optimistically and the channel then
    delivers DELETE for [x], in either order with the successful
    resolution of the delete request, the second removal changes
    nothing and [x] is absent, whichever render the clicked card
    belongs to.  All of these are total functions. *)
Theorem removeById_idempotent (x : jsstring) (l : list Bookmark) :
  removeById x (removeById x l) = removeById x l /\
  (~ In x (ids l) -> removeById x l = l) /\
  ~ In x (ids (removeById x l)) /\
  (forall (rendered : list Bookmark) (st : State),
      let clicked := handleDelete rendered x st in
      let after_event := onPostgresChanges (DELETE x) (fst clicked) in
      after_event = fst clicked /\
      handleDelete_settled (snd clicked) None after_event = fst clicked /\
      onPostgresChanges (DELETE x)
        (handleDelete_settled (snd clicked) None (fst clicked)) = fst clicked /\
      ~ In x (ids (bookmarks after_event))).
Proof.
  split; [apply removeById_idem|].
  split; [apply removeById_absent|].
  split; [apply removeById_not_in|].
  intros rendered st. simpl. unfold setBookmarks. simpl.
  rewrite removeById_idem.
  repeat split; auto using removeById_not_in.
Qed.

Lemma removeById_idempotent_witness :
  ~ In ScenarioA.temp (ids [ScenarioA.row]) /\
  removeById ScenarioA.temp [ScenarioA.row] = [ScenarioA.row].
Proof.
  assert (H : ~ In ScenarioA.temp (ids [ScenarioA.row])).
  { simpl. intros [H|[]]. discriminate H. }
  split; [exact H|].
  exact (proj1 (proj2 (removeById_idempotent ScenarioA.temp [ScenarioA.row])) H).
Defined.

(** ** Created events (C7) *)

(** C7.  The INSERT branch of the realtime callback returns the state it
    was given when a record with the id of the new row is in the list,
    and otherwise puts the new row in front of the list and changes
    nothing else. *)
Theorem created_event_folds (r : Bookmark) (st : State) :
  (In (Bookmark.id r) (ids (bookmarks st)) ->
   onPostgresChanges (INSERT r) st = st) /\
  (~ In (Bookmark.id r) (ids (bookmarks st)) ->
   onPostgresChanges (INSERT r) st = setBookmarks (insertAtFront r) st /\
   bookmarks (onPostgresChanges (INSERT r) st) = r :: bookmarks st).
Proof.
  split; intros H; simpl; unfold setBookmarks.
  - rewrite insertUnlessExists_present by assumption. destruct st; reflexivity.
  - rewrite insertUnlessExists_absent by assumption. split; reflexivity.
Qed.

Lemma created_event_folds_witness :
  (In (Bookmark.id ScenarioA.row) (ids (bookmarks (initialState [ScenarioA.row]))) /\
   onPostgresChanges (INSERT ScenarioA.row) (initialState [ScenarioA.row])
   = initialState [ScenarioA.row]) /\
  (~ In (Bookmark.id ScenarioA.row) (ids (bookmarks (initialState []))) /\
   bookmarks (onPostgresChanges (INSERT ScenarioA.row) (initialState []))
   = [ScenarioA.row]).
Proof.
  assert (H1 : In (Bookmark.id ScenarioA.row)
                 (ids (bookmarks (initialState [ScenarioA.row]))))
    by (simpl; left; reflexivity).
  assert (H2 : ~ In (Bookmark.id ScenarioA.row) (ids (bookmarks (initialState []))))
    by (simpl; tauto).
  split.
  - split; [exact H1|].
    exact (proj1 (created_event_folds ScenarioA.row (initialState [ScenarioA.row])) H1).
  - split; [exact H2|].
    exact (proj2 (proj2 (created_event_folds ScenarioA.row (initialState [])) H2)).
Defined.

(** ** Realtime events between a submit and its resolution *)

Lemma onPostgresChanges_keeps (b : Bookmark) (e : RealtimePayload)
  (st : State) :
  e <> DELETE (Bookmark.id b) ->
  In b (bookmarks st) -> In b (bookmarks (onPostgresChanges e st)).
Proof.
  intros He Hb. destruct e as [new|new|x]; simpl; [| assumption |].
  - unfold insertUnlessExists.
    destruct (existsb _ _); [assumption | right; assumption].
  - unfold removeById. apply filter_In. split; [assumption|].
    apply negb_true_iff. unfold has_id. apply jsstring_eqb_neq.
    intros E. apply He. rewrite E. reflexivity.
Qed.

Lemma deliverAll_keeps (b : Bookmark) (evs : list RealtimePayload)
  (st : State) :
  ~ In (DELETE (Bookmark.id b)) evs ->
  In b (bookmarks st) -> In b (bookmarks (deliverAll evs st)).
Proof.
  revert st. induction evs as [|e evs IH]; simpl; intros st Hn Hb;
    [assumption|].
  apply IH; [tauto|].
  apply onPostgresChanges_keeps; [|assumption].
  intros E. apply Hn. left. assumption.
Qed.

(** ** A response without a row (C9) *)

(** C9.  When the insert request of a submit succeeds and the response
    holds no row ([data] is [null] or an empty array), the continuation
    changes neither the list nor [error] of whatever state it finds.  So
    right after the submit the list is the placeholder, whose id is the
    temporary id, in front of the list the submit found, and [error] is
    the empty string the submit set; and after any realtime payloads in
    between, none of them a DELETE of the temporary id, the placeholder
    is still in the list. *)
Theorem rowless_success_keeps_placeholder (new_URL : jsstring -> bool)
  (userId uuid now : jsstring) (st st1 : State) (p : PendingInsert)
  (r : InsertResponse) :
  handleSubmit new_URL userId uuid now st = (st1, Some p) ->
  insertError r = None ->
  data r = None \/ data r = Some [] ->
  (forall st', bookmarks (handleSubmit_settled p r st') = bookmarks st' /\
               error (handleSubmit_settled p r st') = error st') /\
  Bookmark.id (optimisticBookmark p) = uuid /\
  bookmarks (handleSubmit_settled p r st1) = optimisticBookmark p :: bookmarks st /\
  error (handleSubmit_settled p r st1) = [] /\
  (forall evs, ~ In (DELETE uuid) evs ->
     In (optimisticBookmark p)
        (bookmarks (handleSubmit_settled p r (deliverAll evs st1))) /\
     error (handleSubmit_settled p r (deliverAll evs st1)) = []).
Proof.
  intros Hs He Hd.
  assert (Hany : forall st', bookmarks (handleSubmit_settled p r st') = bookmarks st' /\
                             error (handleSubmit_settled p r st') = error st').
  { intros st'. unfold handleSubmit_settled. rewrite He.
    destruct Hd as [-> | ->]; simpl; auto. }
  apply handleSubmit_pending in Hs. destruct Hs as (_ & _ & Hp & Hst1).
  assert (Hid : Bookmark.id (optimisticBookmark p) = uuid) by (subst p; reflexivity).
  split; [exact Hany|]. split; [exact Hid|].
  destruct (Hany st1) as [Hb Herr]. rewrite Hb, Herr.
  split; [rewrite Hst1; reflexivity|]. split; [rewrite Hst1; reflexivity|].
  intros evs Hn. destruct (Hany (deliverAll evs st1)) as [Hb' Herr'].
  rewrite Hb', Herr'. split.
  - apply deliverAll_keeps; [rewrite Hid; assumption|].
    rewrite Hst1. simpl. left. reflexivity.
  - rewrite Hst1. generalize (optimisticBookmark p :: bookmarks st).
    clear. intros l. revert l. induction evs as [|e evs IH]; intros l; simpl;
      [reflexivity|].
    destruct e; simpl; unfold setBookmarks; simpl; apply IH.
Qed.

Lemma rowless_success_keeps_placeholder_witness :
  handleSubmit (accepts_only ScenarioA.url_a) user1 ScenarioA.temp
    ScenarioA.now ScenarioA.before_submit
  = (ScenarioA.after_submit, Some ScenarioA.pending) /\
  bookmarks (handleSubmit_settled ScenarioA.pending
               (mkInsertResponse (Some []) None) ScenarioA.after_submit)
  = [ScenarioA.placeholder] /\
  error (handleSubmit_settled ScenarioA.pending
           (mkInsertResponse (Some []) None) ScenarioA.after_submit) = [].
Proof.
  assert (H : handleSubmit (accepts_only ScenarioA.url_a) user1 ScenarioA.temp
                ScenarioA.now ScenarioA.before_submit
              = (ScenarioA.after_submit, Some ScenarioA.pending))
    by reflexivity.
  split; [exact H|].
  pose proof (rowless_success_keeps_placeholder _ _ _ _ _ _ _
                (mkInsertResponse (Some []) None) H eq_refl
                (or_intror eq_refl)) as W.
  split; [exact (proj1 (proj2 (proj2 W))) | exact (proj1 (proj2 (proj2 (proj2 W))))].
Defined.

(** ** Deleting an id that is not in the list (C10) *)

(** C10, as the code has it.  A delete of an id that no record of the
    current list carries filters nothing out: the state after the click
    is the state before it, and it stays so when the request succeeds.
    When the list of the render that created the handler holds no
    record with the id either, no record is captured, and the
    continuation returns whatever state it finds, with or without an
    error from the store. *)
Theorem delete_of_absent_id (rendered : list Bookmark) (id : jsstring)
  (st : State) :
  ~ In id (ids (bookmarks st)) ->
  fst (handleDelete rendered id st) = st /\
  (forall st' : State,
      handleDelete_settled (snd (handleDelete rendered id st)) None st' = st') /\
  (~ In id (ids rendered) ->
   bookmarkToDelete (snd (handleDelete rendered id st)) = None /\
   forall (deleteError : option PostgrestError) (st' : State),
     handleDelete_settled (snd (handleDelete rendered id st)) deleteError st'
     = st').
Proof.
  intros H. unfold handleDelete. simpl.
  split.
  - unfold setBookmarks. rewrite removeById_absent by assumption.
    destruct st; reflexivity.
  - split; [reflexivity|].
    intros Hr. rewrite (find_has_id_absent _ _ Hr).
    split; [reflexivity|].
    intros [e|] st'; reflexivity.
Qed.

Lemma delete_of_absent_id_witness :
  ~ In ScenarioA.temp (ids (bookmarks (initialState [ScenarioA.row]))) /\
  ~ In ScenarioA.temp (ids [ScenarioA.row]) /\
  fst (handleDelete [ScenarioA.row] ScenarioA.temp (initialState [ScenarioA.row]))
  = initialState [ScenarioA.row] /\
  handleDelete_settled
    (snd (handleDelete [ScenarioA.row] ScenarioA.temp
            (initialState [ScenarioA.row])))
    (Some (mkError (js "network") [] [] []))
    (initialState [ScenarioA.row])
  = initialState [ScenarioA.row].
Proof.
  assert (H : ~ In ScenarioA.temp (ids (bookmarks (initialState [ScenarioA.row])))).
  { simpl. intros [H|[]]. discriminate H. }
  assert (Hr : ~ In ScenarioA.temp (ids [ScenarioA.row])).
  { simpl. intros [Hr|[]]. discriminate Hr. }
  split; [exact H|]. split; [exact Hr|].
  pose proof (delete_of_absent_id [ScenarioA.row] ScenarioA.temp
                (initialState [ScenarioA.row]) H) as W.
  split; [exact (proj1 W) | apply (proj2 (proj2 (proj2 W) Hr))].
Defined.

(** C10 as the claim words it fails for a click on a card of a render
    that is no longer current: the list showed [r2] and [r1], [r2] has
    left the list since, and the click on the card of [r2] still finds
    it in the render's list.  Nothing is filtered out, and when the
    request fails the rollback puts [r2] back in front. *)
Lemma stale_delete_rollback_reinserts :
  ~ In (Bookmark.id ScenarioT.r2) (ids (bookmarks (initialState [ScenarioT.r1]))) /\
  bookmarks (fst (handleDelete [ScenarioT.r2; ScenarioT.r1]
                    (Bookmark.id ScenarioT.r2) (initialState [ScenarioT.r1])))
  = [ScenarioT.r1] /\
  bookmarkToDelete (snd (handleDelete [ScenarioT.r2; ScenarioT.r1]
                           (Bookmark.id ScenarioT.r2)
                           (initialState [ScenarioT.r1])))
  = Some ScenarioT.r2 /\
  bookmarks
    (handleDelete_settled
       (snd (handleDelete [ScenarioT.r2; ScenarioT.r1]
               (Bookmark.id ScenarioT.r2) (initialState [ScenarioT.r1])))
       (Some (mkError (js "network") [] [] []))
       (fst (handleDelete [ScenarioT.r2; ScenarioT.r1]
               (Bookmark.id ScenarioT.r2) (initialState [ScenarioT.r1]))))
  = [ScenarioT.r2; ScenarioT.r1] /\
  bookmarks
    (handleDelete_settled
       (snd (handleDelete [ScenarioT.r2; ScenarioT.r1]
               (Bookmark.id ScenarioT.r2) (initialState [ScenarioT.r1])))
       (Some (mkError (js "network") [] [] []))
       (fst (handleDelete [ScenarioT.r2; ScenarioT.r1]
               (Bookmark.id ScenarioT.r2) (initialState [ScenarioT.r1]))))
  <> bookmarks (initialState [ScenarioT.r1]).
Proof.
  split.
  - simpl. intros [H|[]]. discriminate H.
  - split; [reflexivity|]. split; [reflexivity|]. split; [reflexivity|].
    discriminate.
Qed.

(** ** A create that the store rejects (C3) *)

Lemma failureMessage_truthy (e : PostgrestError) :
  truthy (failureMessage e) = true.
Proof. reflexivity. Qed.

(** C3, as the code has it.  When the insert request of a submit fails,
    the continuation filters the temporary id out of whatever list it
    finds and changes no other record; with a temporary id that the list
    did not hold before the submit, and nothing in between, the list is
    again the one the submit found.  [error] becomes the failure
    message, a non-empty string.  The url and title fields receive the
    url and title of the placeholder, which are the entered values with
    leading and trailing white space trimmed. *)
Theorem failed_create_rolls_back (new_URL : jsstring -> bool)
  (userId uuid now : jsstring) (st st1 : State) (p : PendingInsert)
  (r : InsertResponse) (e : PostgrestError) :
  handleSubmit new_URL userId uuid now st = (st1, Some p) ->
  insertError r = Some e ->
  ~ In uuid (ids (bookmarks st)) ->
  let st2 := handleSubmit_settled p r st1 in
  bookmarks st2 = bookmarks st /\
  url st2 = trim (url st) /\
  title st2 = trim (title st) /\
  error st2 = failureMessage e /\
  truthy (error st2) = true /\
  isAdding st2 = false /\
  (forall st', bookmarks (handleSubmit_settled p r st')
               = removeById uuid (bookmarks st')).
Proof.
  intros Hs He Hfresh.
  apply handleSubmit_pending in Hs. destruct Hs as (_ & _ & Hp & Hst1).
  unfold handleSubmit_settled. rewrite He. subst p. simpl in *. subst st1.
  simpl. unfold has_id at 1. simpl. rewrite jsstring_eqb_refl. simpl.
  fold (removeById uuid (bookmarks st)).
  rewrite removeById_absent by assumption.
  repeat split; reflexivity.
Qed.

Lemma failed_create_rolls_back_witness :
  ScenarioB.submitted
  = (mkState [ScenarioB.placeholder] [] [] true [], Some ScenarioB.pending) /\
  ~ In ScenarioB.temp (ids (bookmarks ScenarioB.before_submit)) /\
  bookmarks (handleSubmit_settled ScenarioB.pending ScenarioB.failure
               (mkState [ScenarioB.placeholder] [] [] true [])) = [] /\
  title (handleSubmit_settled ScenarioB.pending ScenarioB.failure
           (mkState [ScenarioB.placeholder] [] [] true [])) = js "B".
Proof.
  assert (H : handleSubmit (accepts_only ScenarioB.url_b) user1 ScenarioB.temp
                ScenarioB.now ScenarioB.before_submit
              = (mkState [ScenarioB.placeholder] [] [] true [],
                 Some ScenarioB.pending)) by reflexivity.
  assert (F : ~ In ScenarioB.temp (ids (bookmarks ScenarioB.before_submit)))
    by (simpl; tauto).
  split; [exact H|]. split; [exact F|].
  pose proof (failed_create_rolls_back _ _ _ _ _ _ _ ScenarioB.failure _
                H eq_refl F) as W.
  split; [exact (proj1 W) | exact (proj1 (proj2 (proj2 W)))].
Defined.

(** C3 as the spec words it fails on an entered title with a
    leading space: the field is set to the trimmed title, not to the
    entered one. *)
Lemma failed_create_title_is_trimmed :
  title ScenarioB.before_submit = js " B" /\
  ScenarioB.submitted
  = (mkState [ScenarioB.placeholder] [] [] true [], Some ScenarioB.pending) /\
  title (handleSubmit_settled ScenarioB.pending ScenarioB.failure
           (fst ScenarioB.submitted)) = js "B" /\
  title (handleSubmit_settled ScenarioB.pending ScenarioB.failure
           (fst ScenarioB.submitted)) <> title ScenarioB.before_submit.
Proof.
  split; [reflexivity|]. split; [reflexivity|]. split; [reflexivity|].
  discriminate.
Qed.

(** ** Order of the rendered list (C6) *)

Lemma StronglySorted_snoc {A : Type} (R : A -> A -> Prop) (l : list A) (a : A) :
  StronglySorted R (l ++ [a]) <->
  StronglySorted R l /\ Forall (fun x => R x a) l.
Proof.
  induction l as [|b l IH]; simpl.
  - split; [intros _; split; constructor | intros _; repeat constructor].
  - split.
    + intros H. apply StronglySorted_inv in H. destruct H as [H1 H2].
      apply IH in H1. destruct H1 as [H1 H3].
      apply Forall_app in H2. destruct H2 as [H2 H4].
      split; constructor; auto. inversion H4; assumption.
    + intros [H1 H2]. apply StronglySorted_inv in H1. destruct H1 as [H1 H3].
      inversion H2 as [|? ? H4 H5]; subst.
      constructor; [apply IH; split; assumption|].
      apply Forall_app. split; [assumption | constructor; [assumption | constructor]].
Qed.

Lemma StronglySorted_rev_iff {A : Type} (R : A -> A -> Prop) (l : list A) :
  StronglySorted (fun a b => R b a) (rev l) <-> StronglySorted R l.
Proof.
  induction l as [|a l IH]; simpl.
  - split; intros _; constructor.
  - rewrite StronglySorted_snoc, IH. split.
    + intros [H1 H2]. constructor; [assumption|].
      apply Forall_rev in H2. rewrite rev_involutive in H2. assumption.
    + intros H. apply StronglySorted_inv in H. destruct H as [H1 H2].
      split; [assumption | apply Forall_rev; assumption].
Qed.

Lemma bookmarks_insertAll (ins : list (InsertionPath * Bookmark)) (st : State) :
  NoDup (ids (List.map snd ins)) ->
  (forall b, In b (List.map snd ins) ->
             ~ In (Bookmark.id b) (ids (bookmarks st))) ->
  bookmarks (insertAll ins st) = rev (List.map snd ins) ++ bookmarks st.
Proof.
  revert st. induction ins as [|[path b] ins IH]; intros st Hnd Hfresh;
    [reflexivity|].
  simpl in Hnd. inversion Hnd as [|? ? Hb Hrest]; subst.
  assert (Hstep : bookmarks (setBookmarks (insertVia path b) st)
                  = b :: bookmarks st).
  { destruct path; simpl; try reflexivity.
    apply insertUnlessExists_absent. apply Hfresh. left. reflexivity. }
  unfold insertAll. simpl. fold (insertAll ins (setBookmarks (insertVia path b) st)).
  rewrite IH; [| assumption |].
  - rewrite Hstep. simpl. rewrite <- app_assoc. reflexivity.
  - intros b' Hb'. rewrite Hstep. simpl. intros [E|Hin].
    + apply Hb. rewrite E. unfold ids. apply in_map. assumption.
    + apply (Hfresh b'); [right; assumption | assumption].
Qed.

(** C6, as the code has it.  Every insertion path puts the record in
    front of the list and none sorts: for records with distinct ids that
    the list does not hold yet, the rendered list is the inserted
    records in reverse order of insertion, followed by the list they
    were inserted into.  Starting from the empty list, the rendered list
    is ordered by [created_at] descending exactly when the records were
    inserted in ascending order of [created_at]. *)
Theorem snapshot_is_reverse_insertion_order
  (ins : list (InsertionPath * Bookmark)) (st : State) :
  NoDup (ids (List.map snd ins)) ->
  (forall b, In b (List.map snd ins) ->
             ~ In (Bookmark.id b) (ids (bookmarks st))) ->
  snapshot (insertAll ins st) = rev (List.map snd ins) ++ bookmarks st /\
  (bookmarks st = [] ->
   (newest_first (snapshot (insertAll ins st)) <->
    oldest_first (List.map snd ins))).
Proof.
  intros Hnd Hfresh. unfold snapshot.
  rewrite (bookmarks_insertAll ins st Hnd Hfresh).
  split; [reflexivity|].
  intros ->. rewrite app_nil_r. unfold newest_first, oldest_first.
  apply StronglySorted_rev_iff.
Qed.

Lemma snapshot_is_reverse_insertion_order_witness :
  let ins := [(ViaRealtime, ScenarioT.r1); (ViaOptimistic, ScenarioT.r2);
              (ViaRollback, ScenarioT.r3)] in
  NoDup (ids (List.map snd ins)) /\
  (forall b, In b (List.map snd ins) ->
             ~ In (Bookmark.id b) (ids (bookmarks (initialState [])))) /\
  snapshot (insertAll ins (initialState []))
  = [ScenarioT.r3; ScenarioT.r2; ScenarioT.r1].
Proof.
  assert (Hnd : NoDup (ids (List.map snd
                   [(ViaRealtime, ScenarioT.r1); (ViaOptimistic, ScenarioT.r2);
                    (ViaRollback, ScenarioT.r3)]))).
  { simpl. repeat constructor; simpl; intuition discriminate. }
  assert (Hfresh : forall b, In b (List.map snd
                   [(ViaRealtime, ScenarioT.r1); (ViaOptimistic, ScenarioT.r2);
                    (ViaRollback, ScenarioT.r3)]) ->
             ~ In (Bookmark.id b) (ids (bookmarks (initialState [])))).
  { intros b _ []. }
  split; [exact Hnd|]. split; [exact Hfresh|].
  exact (proj1 (snapshot_is_reverse_insertion_order _ _ Hnd Hfresh)).
Defined.

(** C6 as the spec words it fails when the newest record is
    inserted first: three INSERT payloads in the order T3, T2, T1 leave
    the list as T1, T2, T3. *)
Lemma newest_inserted_first_ends_last :
  created_before ScenarioT.r1 ScenarioT.r2 /\
  created_before ScenarioT.r2 ScenarioT.r3 /\
  snapshot (deliverAll [INSERT ScenarioT.r3; INSERT ScenarioT.r2;
                        INSERT ScenarioT.r1] (initialState []))
  = [ScenarioT.r1; ScenarioT.r2; ScenarioT.r3] /\
  snapshot (deliverAll [INSERT ScenarioT.r3; INSERT ScenarioT.r2;
                        INSERT ScenarioT.r1] (initialState []))
  <> [ScenarioT.r3; ScenarioT.r2; ScenarioT.r1] /\
  ~ newest_first
      (snapshot (deliverAll [INSERT ScenarioT.r3; INSERT ScenarioT.r2;
                             INSERT ScenarioT.r1] (initialState []))).
Proof.
  split; [reflexivity|]. split; [reflexivity|]. split; [reflexivity|].
  split; [discriminate|].
  intros H. change (newest_first [ScenarioT.r1; ScenarioT.r2; ScenarioT.r3]) in H.
  apply StronglySorted_inv in H. destruct H as [_ H].
  inversion H as [|? ? H1 _]; subst. discriminate H1.
Qed.

(** ** The echo of a create and its response (C1, C2) *)

Lemma submit_scenarioA (new_URL : jsstring -> bool) :
  new_URL ScenarioA.url_a = true ->
  handleSubmit new_URL user1 ScenarioA.temp ScenarioA.now ScenarioA.before_submit
  = (ScenarioA.after_submit, Some ScenarioA.pending).
Proof.
  intros H. rewrite handleSubmit_accepts; [reflexivity | exact H | discriminate].
Qed.

(** When the response is handled before the echo, the placeholder is
    replaced and the echo is skipped. *)
Lemma response_then_echo (uuid : jsstring) (placeholder row : Bookmark)
  (l : list Bookmark) :
  Bookmark.id placeholder = uuid -> ~ In uuid (ids l) ->
  insertUnlessExists row (replaceById uuid row (placeholder :: l)) = row :: l.
Proof.
  intros Hid Hfresh. simpl. unfold has_id at 1. rewrite Hid, jsstring_eqb_refl.
  assert (E : replaceById uuid row l = l).
  { clear -Hfresh. induction l as [|b l IH]; simpl; [reflexivity|].
    simpl in Hfresh. destruct (has_id uuid b) eqn:Eb.
    - apply has_id_true in Eb. tauto.
    - rewrite IH; tauto. }
  rewrite E. apply insertUnlessExists_present. simpl. left. reflexivity.
Qed.

(** C1 at its failing history.  A submit from the empty list, then the
    INSERT payload of the created row, then the response carrying the
    same row: the INSERT updater finds no record with the permanent id
    (the placeholder has the temporary one) and puts the row in front;
    the response then maps the placeholder to the row as well.  The list
    holds the permanent id twice. *)
Theorem echo_before_response_duplicates_id (new_URL : jsstring -> bool) :
  new_URL ScenarioA.url_a = true ->
  let submit :=
    handleSubmit new_URL user1 ScenarioA.temp ScenarioA.now
      ScenarioA.before_submit in
  let final :=
    handleSubmit_settled ScenarioA.pending ScenarioA.ok
      (onPostgresChanges (INSERT ScenarioA.row) (fst submit)) in
  snd submit = Some ScenarioA.pending /\
  NoDup (ids (bookmarks (fst submit))) /\
  bookmarks final = [ScenarioA.row; ScenarioA.row] /\
  ids (bookmarks final) = [ScenarioA.perm; ScenarioA.perm] /\
  ~ NoDup (ids (bookmarks final)).
Proof.
  intros H. simpl. rewrite (submit_scenarioA new_URL H). simpl.
  split; [reflexivity|]. split; [repeat constructor; simpl; tauto|].
  split; [reflexivity|]. split; [reflexivity|].
  intros Hnd. change (NoDup [ScenarioA.perm; ScenarioA.perm]) in Hnd.
  inversion Hnd as [|? ? Hin _]; subst. apply Hin. left. reflexivity.
Qed.

Lemma echo_before_response_duplicates_id_witness :
  accepts_only ScenarioA.url_a ScenarioA.url_a = true /\
  bookmarks
    (handleSubmit_settled ScenarioA.pending ScenarioA.ok
       (onPostgresChanges (INSERT ScenarioA.row)
          (fst (handleSubmit (accepts_only ScenarioA.url_a) user1
                  ScenarioA.temp ScenarioA.now ScenarioA.before_submit))))
  = [ScenarioA.row; ScenarioA.row].
Proof.
  assert (H : accepts_only ScenarioA.url_a ScenarioA.url_a = true)
    by reflexivity.
  split; [exact H|].
  exact (proj1 (proj2 (proj2
           (echo_before_response_duplicates_id (accepts_only ScenarioA.url_a) H)))).
Defined.

(** C2 at its failing history.  Right after the submit the list shows
    the entered url and title once, under the temporary id, and when the
    response is handled before the echo it shows them once, under the
    permanent id.  When the echo is handled before the response it shows
    them twice, both under the permanent id. *)
Theorem echo_before_response_shows_create_twice (new_URL : jsstring -> bool) :
  new_URL ScenarioA.url_a = true ->
  let submit :=
    handleSubmit new_URL user1 ScenarioA.temp ScenarioA.now
      ScenarioA.before_submit in
  let shown st :=
    count_url_title ScenarioA.url_a ScenarioA.title_a (bookmarks st) in
  submit = (ScenarioA.after_submit, Some ScenarioA.pending) /\
  bookmarks (fst submit) = [ScenarioA.placeholder] /\
  shown (fst submit) = 1%nat /\
  shown (onPostgresChanges (INSERT ScenarioA.row)
           (handleSubmit_settled ScenarioA.pending ScenarioA.ok (fst submit)))
  = 1%nat /\
  shown (handleSubmit_settled ScenarioA.pending ScenarioA.ok
           (onPostgresChanges (INSERT ScenarioA.row) (fst submit)))
  = 2%nat.
Proof.
  intros H. simpl. rewrite (submit_scenarioA new_URL H).
  repeat split; reflexivity.
Qed.

Lemma echo_before_response_shows_create_twice_witness :
  accepts_only ScenarioA.url_a ScenarioA.url_a = true /\
  count_url_title ScenarioA.url_a ScenarioA.title_a
    (bookmarks
       (handleSubmit_settled ScenarioA.pending ScenarioA.ok
          (onPostgresChanges (INSERT ScenarioA.row)
             (fst (handleSubmit (accepts_only ScenarioA.url_a) user1
                     ScenarioA.temp ScenarioA.now ScenarioA.before_submit)))))
  = 2%nat.
Proof.
  assert (H : accepts_only ScenarioA.url_a ScenarioA.url_a = true)
    by reflexivity.
  split; [exact H|].
  exact (proj2 (proj2 (proj2 (proj2
           (echo_before_response_shows_create_twice
              (accepts_only ScenarioA.url_a) H))))).
Defined.

(** * Further properties of the component *)

(** ** Realtime payloads among themselves *)

Lemma has_id_false (x : jsstring) (b : Bookmark) :
  has_id x b = false <-> Bookmark.id b <> x.
Proof. apply jsstring_eqb_neq. Qed.

Lemma removeById_comm (x y : jsstring) (l : list Bookmark) :
  removeById x (removeById y l) = removeById y (removeById x l).
Proof.
  induction l as [|b l IH]; simpl; [reflexivity|].
  destruct (has_id y b) eqn:Ey, (has_id x b) eqn:Ex; simpl;
    rewrite ?Ex, ?Ey; simpl; congruence.
Qed.

Lemma existsb_has_id_removeById (x y : jsstring) (l : list Bookmark) :
  y <> x ->
  existsb (has_id y) (removeById x l) = existsb (has_id y) l.
Proof.
  intros Hyx. induction l as [|b l IH]; simpl; [reflexivity|].
  destruct (has_id x b) eqn:Ex; simpl.
  - rewrite IH. apply has_id_true in Ex.
    assert (has_id y b = false) as -> by (apply has_id_false; congruence).
    reflexivity.
  - rewrite IH. reflexivity.
Qed.

Lemma removeById_insertUnlessExists (x : jsstring) (new : Bookmark)
  (l : list Bookmark) :
  Bookmark.id new <> x ->
  removeById x (insertUnlessExists new l)
  = insertUnlessExists new (removeById x l).
Proof.
  intros Hn. unfold insertUnlessExists.
  rewrite existsb_has_id_removeById by assumption.
  destruct (existsb (has_id (Bookmark.id new)) l); [reflexivity|].
  simpl. apply has_id_false in Hn. rewrite Hn. reflexivity.
Qed.

(** X1.  Payloads of the channel keep ids unique: from a list in which
    no two records share an id, any sequence of INSERT, UPDATE and
    DELETE payloads leads to a list in which no two records share an
    id.  The INSERT updater's [some] test is what makes this hold. *)
Theorem realtime_payloads_keep_ids_unique (evs : list RealtimePayload)
  (st : State) :
  NoDup (ids (bookmarks st)) ->
  NoDup (ids (bookmarks (deliverAll evs st))).
Proof.
  revert st. induction evs as [|e evs IH]; intros st H; simpl; [exact H|].
  apply IH. destruct e as [new|new|x]; simpl.
  - apply insertUnlessExists_NoDup, H.
  - exact H.
  - apply removeById_NoDup, H.
Qed.

Lemma realtime_payloads_keep_ids_unique_witness :
  NoDup (ids (bookmarks (initialState [ScenarioT.r1]))) /\
  NoDup (ids (bookmarks
                (deliverAll [INSERT ScenarioT.r2; INSERT ScenarioT.r1;
                             INSERT ScenarioT.r2; DELETE (js "id-1")]
                   (initialState [ScenarioT.r1])))).
Proof.
  assert (H : NoDup (ids (bookmarks (initialState [ScenarioT.r1]))))
    by (simpl; repeat constructor; simpl; tauto).
  split; [exact H|].
  exact (realtime_payloads_keep_ids_unique
           [INSERT ScenarioT.r2; INSERT ScenarioT.r1; INSERT ScenarioT.r2;
            DELETE (js "id-1")] (initialState [ScenarioT.r1]) H).
Defined.

(** X2.  A payload delivered twice in a row has the effect of one
    delivery, whatever the payload and the state: the second INSERT
    finds the id, the second DELETE finds nothing to filter, and UPDATE
    is ignored both times. *)
Theorem redelivered_payload_is_absorbed (e : RealtimePayload) (st : State) :
  onPostgresChanges e (onPostgresChanges e st) = onPostgresChanges e st.
Proof.
  destruct e as [new|new|x]; simpl; unfold setBookmarks; simpl;
    [| reflexivity |].
  - f_equal.
    destruct (existsb (has_id (Bookmark.id new)) (bookmarks st)) eqn:E.
    + apply existsb_has_id in E.
      rewrite (insertUnlessExists_present new (bookmarks st) E).
      apply insertUnlessExists_present, E.
    + apply existsb_has_id_false in E.
      rewrite (insertUnlessExists_absent new (bookmarks st) E).
      apply insertUnlessExists_present. simpl. left. reflexivity.
  - f_equal. apply removeById_idem.
Qed.

(** X3.  A DELETE payload undoes an earlier INSERT payload of the same
    id, whether or not the INSERT added anything; and DELETE payloads
    for any two ids give the same state in either order. *)
Theorem delete_payload_absorbs_insert_and_commutes (r : Bookmark)
  (x y : jsstring) (st : State) :
  onPostgresChanges (DELETE (Bookmark.id r)) (onPostgresChanges (INSERT r) st)
  = onPostgresChanges (DELETE (Bookmark.id r)) st /\
  onPostgresChanges (DELETE x) (onPostgresChanges (DELETE y) st)
  = onPostgresChanges (DELETE y) (onPostgresChanges (DELETE x) st).
Proof.
  split; simpl; unfold setBookmarks; simpl; f_equal.
  - unfold insertUnlessExists.
    destruct (existsb (has_id (Bookmark.id r)) (bookmarks st));
      [reflexivity|].
    simpl. unfold has_id at 1. rewrite jsstring_eqb_refl. reflexivity.
  - apply removeById_comm.
Qed.

(** ** A create and the payloads that arrive before it resolves *)

Lemma removeById_deliverAll (x : jsstring) (evs : list RealtimePayload)
  (st : State) :
  (forall new, In (INSERT new) evs -> Bookmark.id new <> x) ->
  removeById x (bookmarks (deliverAll evs st))
  = bookmarks (deliverAll evs (setBookmarks (removeById x) st)).
Proof.
  revert st. induction evs as [|e evs IH]; intros st H; [reflexivity|].
  simpl. rewrite IH by (intros new Hin; apply H; right; exact Hin).
  f_equal. f_equal.
  destruct e as [new|new|y]; simpl; unfold setBookmarks; simpl;
    [| reflexivity |]; f_equal.
  - apply removeById_insertUnlessExists. apply H. left. reflexivity.
  - apply removeById_comm.
Qed.

(** X4.  The rollback of a failed create undoes the placeholder and
    nothing else, whatever the channel delivered in between: when the
    temporary id was not in the list and no INSERT payload carried it,
    the list after the failure is processed is the list that the same
    payloads would have produced had the submit never happened. *)
Theorem failed_create_rollback_commutes_with_realtime
  (new_URL : jsstring -> bool) (userId uuid now : jsstring)
  (st st1 : State) (p : PendingInsert) (r : InsertResponse)
  (e : PostgrestError) (evs : list RealtimePayload) :
  handleSubmit new_URL userId uuid now st = (st1, Some p) ->
  insertError r = Some e ->
  ~ In uuid (ids (bookmarks st)) ->
  (forall new, In (INSERT new) evs -> Bookmark.id new <> uuid) ->
  bookmarks (handleSubmit_settled p r (deliverAll evs st1))
  = bookmarks (deliverAll evs st).
Proof.
  intros Hs He Hfresh Hevs.
  apply handleSubmit_pending in Hs. destruct Hs as (_ & _ & Hp & Hst1).
  unfold handleSubmit_settled. rewrite He. simpl.
  assert (Ht : tempId p = uuid) by (subst p; reflexivity). rewrite Ht.
  rewrite removeById_deliverAll by assumption.
  assert (E : forall a b : State, bookmarks a = bookmarks b ->
                bookmarks (deliverAll evs a) = bookmarks (deliverAll evs b)).
  { clear. induction evs as [|e evs IH]; intros a b Hab; [exact Hab|].
    simpl. apply IH. destruct e; simpl; congruence. }
  apply E. rewrite Hst1. simpl. rewrite Hp. simpl.
  unfold has_id at 1. simpl. rewrite jsstring_eqb_refl. simpl.
  apply removeById_absent, Hfresh.
Qed.

Lemma failed_create_rollback_commutes_with_realtime_witness :
  bookmarks
    (handleSubmit_settled ScenarioB.pending ScenarioB.failure
       (deliverAll [INSERT ScenarioT.r1; DELETE (js "id-9"); INSERT ScenarioT.r2]
          (mkState [ScenarioB.placeholder] [] [] true [])))
  = [ScenarioT.r2; ScenarioT.r1].
Proof.
  assert (H : handleSubmit (accepts_only ScenarioB.url_b) user1 ScenarioB.temp
                ScenarioB.now ScenarioB.before_submit
              = (mkState [ScenarioB.placeholder] [] [] true [],
                 Some ScenarioB.pending)) by reflexivity.
  assert (F : ~ In ScenarioB.temp (ids (bookmarks ScenarioB.before_submit)))
    by (simpl; tauto).
  assert (G : forall new,
             In (INSERT new)
                [INSERT ScenarioT.r1; DELETE (js "id-9"); INSERT ScenarioT.r2] ->
             Bookmark.id new <> ScenarioB.temp).
  { intros new [E|[E|[E|[]]]]; inversion E; subst; discriminate. }
  exact (failed_create_rollback_commutes_with_realtime _ _ _ _ _ _ _
           ScenarioB.failure _ _ H eq_refl F G).
Defined.

Lemma replaceById_absent (x : jsstring) (row : Bookmark) (l : list Bookmark) :
  ~ In x (ids l) -> replaceById x row l = l.
Proof.
  induction l as [|b l IH]; simpl; intros H; [reflexivity|].
  destruct (has_id x b) eqn:E.
  - apply has_id_true in E. tauto.
  - rewrite IH; tauto.
Qed.

Lemma existsb_has_id_replaceById (x y : jsstring) (row : Bookmark)
  (l : list Bookmark) :
  y <> x -> y <> Bookmark.id row ->
  existsb (has_id y) (replaceById x row l) = existsb (has_id y) l.
Proof.
  intros Hx Hr. induction l as [|b l IH]; simpl; [reflexivity|].
  rewrite IH. f_equal.
  destruct (has_id x b) eqn:E; [|reflexivity].
  apply has_id_true in E.
  assert (has_id y row = false) as -> by (apply has_id_false; congruence).
  symmetry. apply has_id_false. congruence.
Qed.

Lemma replaceById_removeById (x y : jsstring) (row : Bookmark)
  (l : list Bookmark) :
  y <> x -> y <> Bookmark.id row ->
  replaceById x row (removeById y l) = removeById y (replaceById x row l).
Proof.
  intros Hx Hr. induction l as [|b l IH]; simpl; [reflexivity|].
  destruct (has_id x b) eqn:Ex.
  - apply has_id_true in Ex.
    assert (has_id y b = false) as -> by (apply has_id_false; congruence).
    assert (has_id y row = false) as -> by (apply has_id_false; congruence).
    simpl. rewrite IH.
    assert (has_id x b = true) as -> by (apply has_id_true; assumption).
    reflexivity.
  - destruct (has_id y b) eqn:Ey; simpl; rewrite ?Ex, IH; reflexivity.
Qed.

Lemma replaceById_deliverAll (x : jsstring) (row : Bookmark)
  (evs : list RealtimePayload) (st : State) :
  (forall e, In e evs ->
             mentions x e = false /\ mentions (Bookmark.id row) e = false) ->
  replaceById x row (bookmarks (deliverAll evs st))
  = bookmarks (deliverAll evs (setBookmarks (replaceById x row) st)).
Proof.
  revert st. induction evs as [|e evs IH]; intros st H; [reflexivity|].
  simpl. rewrite IH by (intros e' Hin; apply H; right; exact Hin).
  f_equal. f_equal.
  destruct (H e (or_introl eq_refl)) as [Hx Hr].
  destruct e as [new|new|y]; simpl in *; unfold setBookmarks; simpl;
    [| reflexivity |]; f_equal.
  - apply has_id_false in Hx. apply has_id_false in Hr.
    unfold insertUnlessExists.
    rewrite existsb_has_id_replaceById by congruence.
    destruct (existsb (has_id (Bookmark.id new)) (bookmarks st));
      [reflexivity|].
    simpl. assert (has_id x new = false) as -> by (apply has_id_false; exact Hx).
    reflexivity.
  - apply jsstring_eqb_neq in Hx. apply jsstring_eqb_neq in Hr.
    apply replaceById_removeById; assumption.
Qed.

Lemma deliverAll_bookmarks_ext (evs : list RealtimePayload) (a b : State) :
  bookmarks a = bookmarks b ->
  bookmarks (deliverAll evs a) = bookmarks (deliverAll evs b).
Proof.
  revert a b. induction evs as [|e evs IH]; intros a b Hab; [exact Hab|].
  simpl. apply IH. destruct e; simpl; congruence.
Qed.

(** X5.  Processing the response of a successful create commutes with
    the payloads that arrived before it, as long as none of them carries
    the temporary id or the id of the stored row: the list is the one
    that the same payloads would have produced from the stored row in
    front of the list the submit found.  If that list had unique ids and
    did not hold the id of the stored row, the ids are unique
    afterwards. *)
Theorem create_response_commutes_with_unrelated_realtime
  (new_URL : jsstring -> bool) (userId uuid now : jsstring)
  (st st1 : State) (p : PendingInsert) (r : InsertResponse)
  (row : Bookmark) (rest : list Bookmark) (evs : list RealtimePayload) :
  handleSubmit new_URL userId uuid now st = (st1, Some p) ->
  insertError r = None ->
  data r = Some (row :: rest) ->
  ~ In uuid (ids (bookmarks st)) ->
  (forall e, In e evs ->
             mentions uuid e = false /\ mentions (Bookmark.id row) e = false) ->
  bookmarks (handleSubmit_settled p r (deliverAll evs st1))
  = bookmarks (deliverAll evs (setBookmarks (insertAtFront row) st)) /\
  (NoDup (ids (bookmarks st)) -> ~ In (Bookmark.id row) (ids (bookmarks st)) ->
   NoDup (ids (bookmarks (handleSubmit_settled p r (deliverAll evs st1))))).
Proof.
  intros Hs He Hd Hfresh Hevs.
  apply handleSubmit_pending in Hs. destruct Hs as (_ & _ & Hp & Hst1).
  assert (Ht : tempId p = uuid) by (subst p; reflexivity).
  assert (Heq : bookmarks (handleSubmit_settled p r (deliverAll evs st1))
                = bookmarks (deliverAll evs (setBookmarks (insertAtFront row) st))).
  { unfold handleSubmit_settled. rewrite He, Hd. simpl. rewrite Ht.
    rewrite replaceById_deliverAll by assumption.
    apply deliverAll_bookmarks_ext. rewrite Hst1. simpl. rewrite Hp. simpl.
    unfold has_id at 1. simpl. rewrite jsstring_eqb_refl.
    rewrite replaceById_absent by assumption. reflexivity. }
  split; [exact Heq|].
  intros Hnd Hrow. rewrite Heq.
  apply deliverAll_NoDup. simpl. constructor; assumption.
Qed.

Lemma create_response_commutes_with_unrelated_realtime_witness :
  bookmarks
    (handleSubmit_settled ScenarioA.pending ScenarioA.ok
       (deliverAll [INSERT ScenarioT.r1; DELETE (js "id-9"); UPDATE ScenarioA.row]
          ScenarioA.after_submit))
  = [ScenarioT.r1; ScenarioA.row].
Proof.
  assert (H : handleSubmit (accepts_only ScenarioA.url_a) user1 ScenarioA.temp
                ScenarioA.now ScenarioA.before_submit
              = (ScenarioA.after_submit, Some ScenarioA.pending))
    by reflexivity.
  assert (F : ~ In ScenarioA.temp (ids (bookmarks ScenarioA.before_submit)))
    by (simpl; tauto).
  assert (G : forall e,
             In e [INSERT ScenarioT.r1; DELETE (js "id-9"); UPDATE ScenarioA.row] ->
             mentions ScenarioA.temp e = false /\
             mentions (Bookmark.id ScenarioA.row) e = false).
  { intros e [E|[E|[E|[]]]]; subst e; split; reflexivity. }
  exact (proj1 (create_response_commutes_with_unrelated_realtime _ _ _ _ _ _ _
                  ScenarioA.ok ScenarioA.row [] _ H eq_refl eq_refl F G)).
Defined.

(** X6.  When the response of a successful create is processed first,
    the echo of the created row on the channel changes nothing, however
    many times it is delivered: with a temporary id that the list did
    not hold, the list is the stored row in front of the list the submit
    found; and if that list had unique ids without the id of the row,
    the ids stay unique. *)
Theorem echoes_after_response_are_absorbed
  (new_URL : jsstring -> bool) (userId uuid now : jsstring)
  (st st1 : State) (p : PendingInsert) (r : InsertResponse)
  (row : Bookmark) (rest : list Bookmark) (n : nat) :
  handleSubmit new_URL userId uuid now st = (st1, Some p) ->
  insertError r = None ->
  data r = Some (row :: rest) ->
  ~ In uuid (ids (bookmarks st)) ->
  bookmarks (deliverAll (repeat (INSERT row) n) (handleSubmit_settled p r st1))
  = row :: bookmarks st /\
  (NoDup (ids (bookmarks st)) -> ~ In (Bookmark.id row) (ids (bookmarks st)) ->
   NoDup (ids (bookmarks (deliverAll (repeat (INSERT row) n)
                            (handleSubmit_settled p r st1))))).
Proof.
  intros Hs He Hd Hfresh.
  apply handleSubmit_pending in Hs. destruct Hs as (_ & _ & Hp & Hst1).
  assert (Hone : bookmarks (handleSubmit_settled p r st1) = row :: bookmarks st).
  { unfold handleSubmit_settled. rewrite He, Hd. simpl. rewrite Hst1. simpl.
    rewrite Hp. simpl. unfold has_id at 1. simpl. rewrite jsstring_eqb_refl.
    rewrite replaceById_absent by assumption. reflexivity. }
  assert (Hall : forall s : State, bookmarks s = row :: bookmarks st ->
            bookmarks (deliverAll (repeat (INSERT row) n) s) = row :: bookmarks st).
  { induction n as [|n IH]; intros s Hsb; [exact Hsb|].
    simpl. apply IH. simpl. rewrite Hsb.
    apply insertUnlessExists_present. simpl. left. reflexivity. }
  rewrite (Hall _ Hone). split; [reflexivity|].
  intros Hnd Hrow. simpl. constructor; assumption.
Qed.

Lemma echoes_after_response_are_absorbed_witness :
  bookmarks (deliverAll (repeat (INSERT ScenarioA.row) 2)
               (handleSubmit_settled ScenarioA.pending ScenarioA.ok
                  ScenarioA.after_submit))
  = [ScenarioA.row].
Proof.
  assert (H : handleSubmit (accepts_only ScenarioA.url_a) user1 ScenarioA.temp
                ScenarioA.now ScenarioA.before_submit
              = (ScenarioA.after_submit, Some ScenarioA.pending))
    by reflexivity.
  assert (F : ~ In ScenarioA.temp (ids (bookmarks ScenarioA.before_submit)))
    by (simpl; tauto).
  exact (proj1 (echoes_after_response_are_absorbed _ _ _ _ _ _ _
                  ScenarioA.ok ScenarioA.row [] 2 H eq_refl eq_refl F)).
Defined.

(** X7.  The response of a successful create replaces the placeholder
    where it stands: when the list is [before ++ placeholder :: after]
    and no other record carries the temporary id, it becomes
    [before ++ row :: after], so records inserted in front of the
    placeholder meanwhile stay in front of the stored row. *)
Theorem create_response_replaces_in_place (p : PendingInsert)
  (r : InsertResponse) (row placeholder : Bookmark)
  (rest before after : list Bookmark) (st : State) :
  insertError r = None ->
  data r = Some (row :: rest) ->
  Bookmark.id placeholder = tempId p ->
  ~ In (tempId p) (ids before) ->
  ~ In (tempId p) (ids after) ->
  bookmarks st = before ++ placeholder :: after ->
  bookmarks (handleSubmit_settled p r st) = before ++ row :: after.
Proof.
  intros He Hd Hid Hb Ha Hst.
  unfold handleSubmit_settled. rewrite He, Hd. simpl. rewrite Hst.
  unfold replaceById. rewrite map_app. simpl.
  fold (replaceById (tempId p) row before).
  fold (replaceById (tempId p) row after).
  rewrite !replaceById_absent by assumption.
  assert (has_id (tempId p) placeholder = true) as ->
      by (apply has_id_true; assumption).
  reflexivity.
Qed.

Lemma create_response_replaces_in_place_witness :
  bookmarks (handleSubmit_settled ScenarioA.pending ScenarioA.ok
               (mkState [ScenarioT.r2; ScenarioA.placeholder; ScenarioT.r1]
                  [] [] true []))
  = [ScenarioT.r2; ScenarioA.row; ScenarioT.r1].
Proof.
  assert (Hb : ~ In (tempId ScenarioA.pending) (ids [ScenarioT.r2])).
  { simpl. intros [H|[]]. discriminate H. }
  assert (Ha : ~ In (tempId ScenarioA.pending) (ids [ScenarioT.r1])).
  { simpl. intros [H|[]]. discriminate H. }
  exact (create_response_replaces_in_place ScenarioA.pending ScenarioA.ok
           ScenarioA.row ScenarioA.placeholder [] [ScenarioT.r2] [ScenarioT.r1]
           (mkState [ScenarioT.r2; ScenarioA.placeholder; ScenarioT.r1]
              [] [] true [])
           eq_refl eq_refl eq_refl Hb Ha eq_refl).
Defined.

Lemma settled_without_placeholder (p : PendingInsert)
  (r : InsertResponse) (st : State) :
  ~ In (tempId p) (ids (bookmarks st)) ->
  bookmarks (handleSubmit_settled p r st) = bookmarks st.
Proof.
  intros H. unfold handleSubmit_settled.
  destruct (insertError r) as [e|]; simpl.
  - apply removeById_absent, H.
  - destruct (data r) as [[|row rest]|]; simpl; try reflexivity.
    apply replaceById_absent, H.
Qed.

(** X8.  A response that finds no record with the temporary id changes
    no record: when the placeholder is gone by the time the request
    resolves, a success leaves the list as it is (the stored row is not
    added), and so does a failure. *)
Theorem create_response_without_placeholder (p : PendingInsert)
  (r : InsertResponse) (st : State) :
  ~ In (tempId p) (ids (bookmarks st)) ->
  bookmarks (handleSubmit_settled p r st) = bookmarks st.
Proof.
  intros H. unfold handleSubmit_settled.
  destruct (insertError r) as [e|]; simpl.
  - apply removeById_absent, H.
  - destruct (data r) as [[|row rest]|]; simpl; try reflexivity.
    apply replaceById_absent, H.
Qed.

Lemma create_response_without_placeholder_witness :
  bookmarks (handleSubmit_settled ScenarioA.pending ScenarioA.ok
               (initialState [ScenarioT.r1]))
  = [ScenarioT.r1].
Proof.
  assert (H : ~ In (tempId ScenarioA.pending)
                  (ids (bookmarks (initialState [ScenarioT.r1])))).
  { simpl. intros [H|[]]. discriminate H. }
  exact (create_response_without_placeholder ScenarioA.pending ScenarioA.ok
           (initialState [ScenarioT.r1]) H).
Defined.

(** ** Deleting *)

Lemma count_id_removeById (x : jsstring) (l : list Bookmark) :
  count_id x (removeById x l) = 0%nat.
Proof.
  unfold count_id, removeById. induction l as [|b l IH]; simpl; [reflexivity|].
  destruct (has_id x b) eqn:E; simpl; [exact IH|]. rewrite E. exact IH.
Qed.

Lemma find_has_id_some (x : jsstring) (l : list Bookmark) :
  In x (ids l) ->
  exists b, find (has_id x) l = Some b /\ Bookmark.id b = x /\ In b l.
Proof.
  intros H. destruct (find (has_id x) l) as [b|] eqn:E.
  - exists b. apply find_some in E. destruct E as [E1 E2].
    apply has_id_true in E2. auto.
  - exfalso. unfold ids in H. apply in_map_iff in H.
    destruct H as [b [Hb Hin]].
    apply (find_none _ _ E) in Hin. apply has_id_true in Hb. congruence.
Qed.

(** X9.  A delete click removes every record of the current list that
    carries the id, also when the list holds the id more than once.
    The record kept for the rollback is the first one with the id in
    the list of the render that created the handler.  If the store then
    reports an error, the rollback puts that one record back, so
    afterwards the id is in the list once if the render's list held it
    and not at all otherwise; records with other ids are as they
    were. *)
Theorem delete_removes_all_rollback_restores_one
  (rendered : list Bookmark) (x : jsstring) (e : PostgrestError)
  (st : State) :
  let clicked := handleDelete rendered x st in
  let rolled_back := handleDelete_settled (snd clicked) (Some e) (fst clicked) in
  count_id x (bookmarks (fst clicked)) = 0%nat /\
  bookmarkToDelete (snd clicked) = find (has_id x) rendered /\
  count_id x (bookmarks rolled_back) = Nat.min 1 (count_id x rendered) /\
  removeById x (bookmarks rolled_back) = removeById x (bookmarks st).
Proof.
  simpl. split; [apply count_id_removeById|]. split; [reflexivity|].
  destruct (find (has_id x) rendered) as [b|] eqn:E; simpl.
  - pose proof (find_some _ _ E) as [Hin Hb].
    unfold count_id at 1. simpl. rewrite Hb. simpl.
    fold (count_id x (removeById x (bookmarks st))).
    rewrite count_id_removeById. rewrite removeById_idem. split; [|reflexivity].
    unfold count_id.
    assert (Hin' : In b (filter (has_id x) rendered))
      by (apply filter_In; auto).
    destruct (filter (has_id x) rendered); [destruct Hin'|reflexivity].
  - rewrite count_id_removeById, removeById_idem. split; [|reflexivity].
    unfold count_id.
    destruct (filter (has_id x) rendered) as [|b l'] eqn:F; [reflexivity|].
    assert (Hin : In b (filter (has_id x) rendered))
      by (rewrite F; left; reflexivity).
    apply filter_In in Hin. destruct Hin as [Hin Hb].
    pose proof (find_none _ _ E _ Hin). congruence.
Qed.

(** X10.  A delete of a record whose id no other record carries takes
    it out of the list and leaves the others in order; on success
    nothing more happens; on an error of the store the record comes
    back at the front of the list, not at the place it had, so the
    list is then a rearrangement of the one before the click and equal
    to it only if the record was already first. *)
Theorem failed_delete_moves_record_to_front (b : Bookmark)
  (before after : list Bookmark) (e : PostgrestError) (st : State) :
  ~ In (Bookmark.id b) (ids before) ->
  ~ In (Bookmark.id b) (ids after) ->
  bookmarks st = before ++ b :: after ->
  let clicked := handleDelete (bookmarks st) (Bookmark.id b) st in
  bookmarks (fst clicked) = before ++ after /\
  bookmarks (handleDelete_settled (snd clicked) None (fst clicked))
  = before ++ after /\
  bookmarks (handleDelete_settled (snd clicked) (Some e) (fst clicked))
  = b :: before ++ after /\
  (bookmarks (handleDelete_settled (snd clicked) (Some e) (fst clicked))
   = bookmarks st <-> before = []).
Proof.
  intros Hb Ha Hst. simpl.
  assert (Hrem : removeById (Bookmark.id b) (bookmarks st) = before ++ after).
  { rewrite Hst. unfold removeById. rewrite filter_app. simpl.
    unfold has_id at 2. rewrite jsstring_eqb_refl. simpl.
    fold (removeById (Bookmark.id b) before).
    fold (removeById (Bookmark.id b) after).
    rewrite !removeById_absent by assumption. reflexivity. }
  assert (Hfind : find (has_id (Bookmark.id b)) (bookmarks st) = Some b).
  { rewrite Hst. clear Hst Hrem. induction before as [|c before IH]; simpl.
    - unfold has_id. rewrite jsstring_eqb_refl. reflexivity.
    - simpl in Hb. destruct (has_id (Bookmark.id b) c) eqn:E.
      + apply has_id_true in E. tauto.
      + apply IH. tauto. }
  rewrite Hfind. unfold setBookmarks, insertAtFront. simpl. rewrite Hrem.
  split; [reflexivity|]. split; [reflexivity|]. split; [reflexivity|].
  rewrite Hst. split.
  - intros H. destruct before as [|c before]; [reflexivity|].
    exfalso. simpl in H. injection H as Hc _. apply Hb. simpl. left.
    rewrite Hc. reflexivity.
  - intros ->. reflexivity.
Qed.

Lemma failed_delete_moves_record_to_front_witness :
  bookmarks
    (handleDelete_settled
       (snd (handleDelete [ScenarioT.r3; ScenarioT.r2; ScenarioT.r1]
               (js "id-1")
               (initialState [ScenarioT.r3; ScenarioT.r2; ScenarioT.r1])))
       (Some (mkError (js "network") [] [] []))
       (fst (handleDelete [ScenarioT.r3; ScenarioT.r2; ScenarioT.r1]
               (js "id-1")
               (initialState [ScenarioT.r3; ScenarioT.r2; ScenarioT.r1]))))
  = [ScenarioT.r1; ScenarioT.r3; ScenarioT.r2].
Proof.
  assert (Hb : ~ In (Bookmark.id ScenarioT.r1) (ids [ScenarioT.r3; ScenarioT.r2])).
  { simpl. intros [H|[H|[]]]; discriminate H. }
  assert (Ha : ~ In (Bookmark.id ScenarioT.r1) (ids [])) by (simpl; tauto).
  exact (proj1 (proj2 (proj2
    (failed_delete_moves_record_to_front ScenarioT.r1
       [ScenarioT.r3; ScenarioT.r2] [] (mkError (js "network") [] [] [])
       (initialState [ScenarioT.r3; ScenarioT.r2; ScenarioT.r1])
       Hb Ha eq_refl)))).
Defined.

(** ** What an accepted submit sends *)

Lemma trimStart_starts_clean (s : jsstring) :
  starts_with_space (trimStart s) = false.
Proof.
  induction s as [|c s IH]; simpl; [reflexivity|].
  destruct (is_white_space c) eqn:E; [exact IH | simpl; exact E].
Qed.

Lemma trimStart_clean (s : jsstring) :
  starts_with_space s = false -> trimStart s = s.
Proof. destruct s as [|c s]; simpl; [reflexivity | intros ->; reflexivity]. Qed.

Lemma trimStart_snoc (s : jsstring) (c : N) :
  is_white_space c = false -> trimStart (s ++ [c]) = trimStart s ++ [c].
Proof.
  intros Hc. induction s as [|d s IH]; simpl; [rewrite Hc; reflexivity|].
  destruct (is_white_space d); [exact IH | reflexivity].
Qed.

Lemma trimEnd_cons (c : N) (s : jsstring) :
  is_white_space c = false -> trimEnd (c :: s) = c :: trimEnd s.
Proof.
  intros Hc. unfold trimEnd. simpl. rewrite trimStart_snoc by assumption.
  rewrite rev_app_distr. reflexivity.
Qed.

Lemma trimEnd_ends_clean (s : jsstring) : ends_with_space (trimEnd s) = false.
Proof.
  unfold ends_with_space, trimEnd. rewrite rev_involutive.
  apply trimStart_starts_clean.
Qed.

Lemma trimEnd_clean (s : jsstring) :
  ends_with_space s = false -> trimEnd s = s.
Proof.
  unfold ends_with_space, trimEnd. intros H.
  rewrite trimStart_clean by assumption. apply rev_involutive.
Qed.

Lemma trim_starts_clean (s : jsstring) : starts_with_space (trim s) = false.
Proof.
  unfold trim. pose proof (trimStart_starts_clean s) as H.
  destruct (trimStart s) as [|c t]; [reflexivity|].
  simpl in H. rewrite trimEnd_cons by assumption. simpl. exact H.
Qed.

Lemma trim_ends_clean (s : jsstring) : ends_with_space (trim s) = false.
Proof. unfold trim. apply trimEnd_ends_clean. Qed.

Lemma trim_idempotent (s : jsstring) : trim (trim s) = trim s.
Proof.
  unfold trim at 1.
  rewrite (trimStart_clean (trim s) (trim_starts_clean s)).
  apply trimEnd_clean, trim_ends_clean.
Qed.

(** X11.  The request of an accepted submit carries the url and title
    of the placeholder and the user id of the component; its title is
    not empty, and neither its url nor its title begins or ends with
    white space, whatever was typed.  The form is cleared, an earlier
    error message is gone, and the button is disabled. *)
Theorem accepted_submit_sends_trimmed_request (new_URL : jsstring -> bool)
  (userId uuid now : jsstring) (st st1 : State) (p : PendingInsert) :
  handleSubmit new_URL userId uuid now st = (st1, Some p) ->
  req_url (request p) = Bookmark.url (optimisticBookmark p) /\
  req_title (request p) = Bookmark.title (optimisticBookmark p) /\
  req_user_id (request p) = userId /\
  truthy (req_title (request p)) = true /\
  starts_with_space (req_title (request p)) = false /\
  ends_with_space (req_title (request p)) = false /\
  starts_with_space (req_url (request p)) = false /\
  ends_with_space (req_url (request p)) = false /\
  render st1
  = mkView [] [] None true (js "Adding...")
      (S (List.length (bookmarks st)))
      (Items (renderItem (optimisticBookmark p)
                :: List.map renderItem (bookmarks st))).
Proof.
  intros Hs. apply handleSubmit_pending in Hs.
  destruct Hs as (_ & Ht & Hp & Hst1). subst p. simpl in *. subst st1.
  repeat split;
    auto using trim_starts_clean, trim_ends_clean.
  destruct (trim (title st)); [congruence | reflexivity].
Qed.

Lemma accepted_submit_sends_trimmed_request_witness :
  req_title (request ScenarioB.pending) = js "B" /\
  starts_with_space (req_title (request ScenarioB.pending)) = false.
Proof.
  assert (H : handleSubmit (accepts_only ScenarioB.url_b) user1 ScenarioB.temp
                ScenarioB.now ScenarioB.before_submit
              = (mkState [ScenarioB.placeholder] [] [] true [],
                 Some ScenarioB.pending)) by reflexivity.
  split; [reflexivity|].
  exact (proj1 (proj2 (proj2 (proj2 (proj2
    (accepted_submit_sends_trimmed_request _ _ _ _ _ _ _ H)))))).
Defined.

(** X12.  After a failed create the form holds the trimmed url and
    title, so submitting it again as it stands, if the URL parser
    accepts the trimmed url, issues the same request as the first
    submit and clears the failure message. *)
Theorem retry_after_failed_create_repeats_request
  (new_URL : jsstring -> bool) (userId uuid now uuid' now' : jsstring)
  (st st1 : State) (p : PendingInsert) (r : InsertResponse)
  (e : PostgrestError) :
  handleSubmit new_URL userId uuid now st = (st1, Some p) ->
  insertError r = Some e ->
  new_URL (trim (url st)) = true ->
  let retry :=
    handleSubmit new_URL userId uuid' now' (handleSubmit_settled p r st1) in
  option_map request (snd retry) = Some (request p) /\
  option_map tempId (snd retry) = Some uuid' /\
  error (fst retry) = [].
Proof.
  intros Hs He Hu. apply handleSubmit_pending in Hs.
  destruct Hs as (_ & Ht & Hp & Hst1). subst p. simpl in *. subst st1.
  unfold handleSubmit_settled. rewrite He. simpl.
  rewrite handleSubmit_accepts; simpl.
  - rewrite !trim_idempotent. repeat split; reflexivity.
  - exact Hu.
  - rewrite trim_idempotent. exact Ht.
Qed.

Lemma retry_after_failed_create_repeats_request_witness :
  option_map request
    (snd (handleSubmit (accepts_only ScenarioB.url_b) user1 ScenarioA.temp
            ScenarioA.now
            (handleSubmit_settled ScenarioB.pending ScenarioB.failure
               (mkState [ScenarioB.placeholder] [] [] true []))))
  = Some (request ScenarioB.pending).
Proof.
  assert (H : handleSubmit (accepts_only ScenarioB.url_b) user1 ScenarioB.temp
                ScenarioB.now ScenarioB.before_submit
              = (mkState [ScenarioB.placeholder] [] [] true [],
                 Some ScenarioB.pending)) by reflexivity.
  assert (U : accepts_only ScenarioB.url_b (trim (url ScenarioB.before_submit))
              = true) by reflexivity.
  exact (proj1 (retry_after_failed_create_repeats_request _ _ _ _
                  ScenarioA.temp ScenarioA.now _ _ _ ScenarioB.failure _
                  H eq_refl U)).
Defined.

(** X13.  Every exit of [handleSubmit] enables the submit button again:
    a rejected submit leaves it enabled, an accepted one disables it
    until the request resolves, and processing the response enables it
    whatever the response and whatever state it finds. *)
Theorem submit_button_is_reenabled (new_URL : jsstring -> bool)
  (userId uuid now : jsstring) (st : State) :
  let submit := handleSubmit new_URL userId uuid now st in
  (snd submit = None -> submit_disabled (render (fst submit)) = false) /\
  (forall p, snd submit = Some p ->
     submit_disabled (render (fst submit)) = true /\
     forall r st',
       submit_disabled (render (handleSubmit_settled p r st')) = false /\
       submit_label (render (handleSubmit_settled p r st'))
       = js "Add Bookmark").
Proof.
  simpl. unfold handleSubmit.
  destruct (new_URL (url st)); simpl.
  - destruct (trim (title st)) eqn:E; simpl.
    + split; [reflexivity | discriminate].
    + split; [discriminate|]. intros p _. split; [reflexivity|].
      intros r st'. unfold handleSubmit_settled.
      destruct (insertError r); simpl; [split; reflexivity|].
      destruct (data r) as [[|? ?]|]; split; reflexivity.
  - split; [reflexivity | discriminate].
Qed.

Lemma submit_button_is_reenabled_witness :
  snd (handleSubmit (accepts_only ScenarioA.url_a) user1 ScenarioA.temp
         ScenarioA.now ScenarioA.before_submit) = Some ScenarioA.pending /\
  submit_disabled (render (handleSubmit_settled ScenarioA.pending ScenarioB.failure
                             ScenarioA.after_submit)) = false.
Proof.
  assert (H : snd (handleSubmit (accepts_only ScenarioA.url_a) user1
                     ScenarioA.temp ScenarioA.now ScenarioA.before_submit)
              = Some ScenarioA.pending) by reflexivity.
  split; [exact H|].
  exact (proj1 (proj2 (proj2 (submit_button_is_reenabled
                  (accepts_only ScenarioA.url_a) user1 ScenarioA.temp
                  ScenarioA.now ScenarioA.before_submit) _ H)
                  ScenarioB.failure ScenarioA.after_submit)).
Defined.

(** ** The view and the delete buttons *)

Lemma listing_items (st : State) (items : list Item) :
  listing (render st) = Items items ->
  items = List.map renderItem (bookmarks st).
Proof.
  unfold render. simpl.
  destruct (Nat.eqb (List.length (bookmarks st)) 0); [discriminate|].
  intros [= <-]. reflexivity.
Qed.

Lemma length_removeById_NoDup (x : jsstring) (l : list Bookmark) :
  NoDup (ids l) -> In x (ids l) ->
  S (List.length (removeById x l)) = List.length l.
Proof.
  induction l as [|b l IH]; simpl; [intros _ []|].
  intros Hnd Hin. inversion Hnd as [|? ? Hb Hl]; subst.
  destruct (has_id x b) eqn:E; simpl.
  - apply has_id_true in E. subst x.
    fold (removeById (Bookmark.id b) l).
    rewrite removeById_absent by assumption. reflexivity.
  - f_equal. apply IH; [assumption|].
    destruct Hin as [Hin|Hin]; [apply has_id_false in E; congruence | assumption].
Qed.

(** X14.  In a list where no two records share an id, every delete
    button of the current view deletes the record of its card: the
    click captures that record for a possible rollback, sends its id to
    the store, the count in the heading goes down by one at once, and
    the view after the click shows no card with that key. *)
Theorem shown_delete_button_removes_its_card (st : State)
  (items : list Item) (it : Item) :
  NoDup (ids (bookmarks st)) ->
  listing (render st) = Items items ->
  In it items ->
  let clicked := handleDelete (bookmarks st) (delete_target it) st in
  (exists b, bookmarkToDelete (snd clicked) = Some b /\
             renderItem b = it /\ In b (bookmarks st)) /\
  delete_id (snd clicked) = key it /\
  S (count_shown (render (fst clicked))) = count_shown (render st) /\
  (forall items', listing (render (fst clicked)) = Items items' ->
                  ~ In (key it) (List.map key items')).
Proof.
  intros Hnd Hl Hin. apply listing_items in Hl. subst items.
  apply in_map_iff in Hin. destruct Hin as [b [<- Hb]]. simpl.
  assert (Hid : In (Bookmark.id b) (ids (bookmarks st)))
    by (unfold ids; apply in_map; exact Hb).
  split.
  - destruct (find_has_id_some _ _ Hid) as [c (Hf & Hc & Hcin)].
    exists c. split; [exact Hf|]. split; [|exact Hcin].
    assert (c = b) as ->; [|reflexivity].
    clear Hf Hid. revert Hnd Hb Hcin Hc.
    generalize (bookmarks st) as l.
    induction l as [|d l IH]; simpl; [intros _ []|].
    intros Hnd Hb Hcin Hc. inversion Hnd as [|? ? Hd Hl]; subst.
    destruct Hb as [->|Hb], Hcin as [->|Hcin]; try reflexivity.
    + exfalso. apply Hd. rewrite <- Hc. unfold ids. apply in_map. exact Hcin.
    + exfalso. apply Hd. rewrite Hc. unfold ids. apply in_map. exact Hb.
    + apply IH; assumption.
  - split; [reflexivity|].
    split; [apply length_removeById_NoDup; assumption|].
    intros items' Hl'.
    apply (listing_items (setBookmarks (removeById (Bookmark.id b)) st)) in Hl'.
    subst items'. rewrite map_map. simpl.
    apply (removeById_not_in (Bookmark.id b) (bookmarks st)).
Qed.

Lemma shown_delete_button_removes_its_card_witness :
  S (count_shown
       (render (fst (handleDelete [ScenarioT.r3; ScenarioT.r2]
                       (delete_target (renderItem ScenarioT.r2))
                       (initialState [ScenarioT.r3; ScenarioT.r2])))))
  = count_shown (render (initialState [ScenarioT.r3; ScenarioT.r2])).
Proof.
  assert (Hnd : NoDup (ids (bookmarks (initialState [ScenarioT.r3; ScenarioT.r2])))).
  { simpl. repeat constructor; simpl; intuition discriminate. }
  assert (Hl : listing (render (initialState [ScenarioT.r3; ScenarioT.r2]))
               = Items [renderItem ScenarioT.r3; renderItem ScenarioT.r2])
    by reflexivity.
  assert (Hin : In (renderItem ScenarioT.r2)
                  [renderItem ScenarioT.r3; renderItem ScenarioT.r2])
    by (right; left; reflexivity).
  exact (proj1 (proj2 (proj2
           (shown_delete_button_removes_its_card _ _ _ Hnd Hl Hin)))).
Defined.

(** X15.  Deleting the placeholder while its create is pending asks
    the store to delete the temporary id, not the row being created:
    the response then finds no placeholder and leaves the list as it
    was before the submit, without the stored row; the echo of the
    create, when it arrives, puts the stored row in front. *)
Theorem deleting_pending_placeholder_does_not_cancel_create
  (new_URL : jsstring -> bool) (userId uuid now : jsstring)
  (st st1 : State) (p : PendingInsert) (r : InsertResponse)
  (row : Bookmark) (rest : list Bookmark) :
  handleSubmit new_URL userId uuid now st = (st1, Some p) ->
  insertError r = None ->
  data r = Some (row :: rest) ->
  ~ In uuid (ids (bookmarks st)) ->
  ~ In (Bookmark.id row) (ids (bookmarks st)) ->
  let clicked := handleDelete (bookmarks st1) uuid st1 in
  let resolved := handleSubmit_settled p r (fst clicked) in
  delete_id (snd clicked) = uuid /\
  bookmarkToDelete (snd clicked) = Some (optimisticBookmark p) /\
  bookmarks (fst clicked) = bookmarks st /\
  bookmarks resolved = bookmarks st /\
  bookmarks (onPostgresChanges (INSERT row) resolved) = row :: bookmarks st.
Proof.
  intros Hs He Hd Hfresh Hrow.
  apply handleSubmit_pending in Hs. destruct Hs as (_ & _ & Hp & Hst1).
  assert (Ht : tempId p = uuid) by (subst p; reflexivity).
  assert (Hc : bookmarks (fst (handleDelete (bookmarks st1) uuid st1))
               = bookmarks st).
  { rewrite Hst1, Hp. simpl. unfold has_id at 1. simpl.
    rewrite jsstring_eqb_refl. simpl. apply removeById_absent, Hfresh. }
  assert (Hr : bookmarks (handleSubmit_settled p r
                            (fst (handleDelete (bookmarks st1) uuid st1)))
               = bookmarks st).
  { rewrite settled_without_placeholder; [exact Hc|].
    rewrite Ht, Hc. exact Hfresh. }
  simpl. split; [reflexivity|]. split.
  - rewrite Hst1, Hp. simpl. unfold has_id. simpl.
    rewrite jsstring_eqb_refl. reflexivity.
  - split; [exact Hc|]. split; [exact Hr|].
    simpl in Hr. rewrite Hr. apply insertUnlessExists_absent, Hrow.
Qed.

Lemma deleting_pending_placeholder_does_not_cancel_create_witness :
  bookmarks
    (handleSubmit_settled ScenarioA.pending ScenarioA.ok
       (fst (handleDelete (bookmarks ScenarioA.after_submit) ScenarioA.temp
               ScenarioA.after_submit))) = [] /\
  delete_id (snd (handleDelete (bookmarks ScenarioA.after_submit)
                    ScenarioA.temp ScenarioA.after_submit))
  = ScenarioA.temp.
Proof.
  assert (H : handleSubmit (accepts_only ScenarioA.url_a) user1 ScenarioA.temp
                ScenarioA.now ScenarioA.before_submit
              = (ScenarioA.after_submit, Some ScenarioA.pending))
    by reflexivity.
  assert (F : ~ In ScenarioA.temp (ids (bookmarks ScenarioA.before_submit)))
    by (simpl; tauto).
  assert (G : ~ In (Bookmark.id ScenarioA.row)
                  (ids (bookmarks ScenarioA.before_submit)))
    by (simpl; tauto).
  pose proof (deleting_pending_placeholder_does_not_cancel_create _ _ _ _ _ _ _
                ScenarioA.ok ScenarioA.row [] H eq_refl eq_refl F G) as W.
  split; [exact (proj1 (proj2 (proj2 (proj2 W)))) | exact (proj1 W)].
Defined.

(** ** The page *)

(** X16.  Without a signed-in user the page redirects to the root and
    the list is not rendered, whatever the store holds.  With a user,
    the list component receives the user's id and the rows of the
    query, or the empty list when the query gave no data; its first
    render shows the empty panel exactly when there are no rows, and
    otherwise one card per row in the order of the query, with an
    empty form, no error box and the button enabled. *)
Theorem page_hands_rows_to_list (user : option User)
  (rows : option (list Bookmark)) :
  (user = None -> BookmarksPage user rows = Redirect (js "/")) /\
  (forall u, user = Some u ->
     exists props,
       BookmarksPage user rows = Page (email u) props /\
       userId props = uid u /\
       (rows = None -> initialBookmarks props = []) /\
       (forall l, rows = Some l -> initialBookmarks props = l) /\
       firstRender props
       = mkView [] [] None false (js "Add Bookmark")
           (List.length (initialBookmarks props))
           (match initialBookmarks props with
            | [] => NoBookmarksYet
            | l => Items (List.map renderItem l)
            end)).
Proof.
  split; [intros ->; reflexivity|].
  intros u ->. simpl. eexists. split; [reflexivity|]. simpl.
  split; [reflexivity|].
  split; [intros ->; reflexivity|].
  split; [intros l ->; reflexivity|].
  unfold firstRender, render. simpl.
  destruct (match rows with Some l => l | None => [] end); reflexivity.
Qed.

Lemma page_hands_rows_to_list_witness :
  BookmarksPage None (Some [ScenarioT.r1]) = Redirect (js "/").
Proof.
  exact (proj1 (page_hands_rows_to_list None (Some [ScenarioT.r1])) eq_refl).
Defined.
